(** * The Celery forwarding worker of model_engine_server

    A shallow embedding of
    [model_engine_server/inference/forwarding/celery_forwarder.py]:
    the failure-augmenting task base class [ErrorHandlingTask], the helpers
    [raw_celery_response] and [error_response], the application factory
    [create_celery_service] with its two registered task functions, the
    worker start-up and the command-line entry point.

    The module calls [json.dumps] and [json.loads] of the interpreter's
    standard library; both are embedded here from CPython's [json] package
    (encoder.py, decoder.py, scanner.py) so that the serialized text of an
    error payload can be computed and read back. *)

From Stdlib Require Import List NArith ZArith Bool Lia String Ascii.
Import ListNotations.
Open Scope N_scope.

Set Warnings "-register-all".

(** ** Python strings *)

(** A Python [str] is a sequence of code points.  Every code point of a
    real [str] is below 0x110000; surrogate code points (0xD800-0xDFFF) are
    allowed to occur on their own. *)
Definition str := list N.

Module Str.

(** Converts a literal of this file to its code points. *)
Definition lit (x : string) : str :=
  map N_of_ascii (list_ascii_of_string x).

Fixpoint eqb (a b : str) : bool :=
  match a, b with
  | [], [] => true
  | x :: a', y :: b' => (x =? y) && eqb a' b'
  | _, _ => false
  end.

Definition valid (s : str) : Prop := Forall (fun c => c < 0x110000) s.

Definition is_high_surrogate (c : N) : bool := (0xd800 <=? c) && (c <=? 0xdbff).
Definition is_low_surrogate (c : N) : bool := (0xdc00 <=? c) && (c <=? 0xdfff).

(** [true] when a high surrogate is directly followed by a low one. *)
Fixpoint has_surrogate_pair (s : str) : bool :=
  match s with
  | [] => false
  | c :: r =>
      match r with
      | [] => false
      | d :: _ => (is_high_surrogate c && is_low_surrogate d) || has_surrogate_pair r
      end
  end.

End Str.

Definition py (x : string) : str := Str.lit x.
Arguments py x%_string.

(** ** Python values that JSON can carry *)

(** [json.loads] produces [None], booleans, [int], [float], [str], [list] and
    [dict] with [str] keys.  An [int] is exact.  A [float] is kept as the text
    handed to [float(...)] by the scanner: the double it denotes is not
    evaluated.  The interpreter's own limits (recursion depth, number of
    digits of an [int] literal) are not part of the embedding. *)
Inductive pyval : Type :=
| PyNone
| PyBool (b : bool)
| PyInt (z : Z)
| PyFloat (text : str)
| PyStr (s : str)
| PyList (items : list pyval)
| PyDict (items : list (str * pyval)).

Module Dict.

(** Dictionaries keep insertion order; a key occurs once. *)
Definition t := list (str * pyval).

Fixpoint get (d : t) (k : str) : option pyval :=
  match d with
  | [] => None
  | (k', v) :: d' => if Str.eqb k' k then Some v else get d' k
  end.

(** [d[k] = v]: an existing key keeps its position. *)
Fixpoint set (d : t) (k : str) (v : pyval) : t :=
  match d with
  | [] => [(k, v)]
  | (k', v') :: d' =>
      if Str.eqb k' k then (k', v) :: d' else (k', v') :: set d' k v
  end.

(** [dict(pairs)] *)
Definition of_pairs (pairs : list (str * pyval)) : t :=
  fold_left (fun d kv => set d (fst kv) (snd kv)) pairs [].

End Dict.

(** ** json.dumps *)

Module JsonEncoder.

Definition hexdigit (n : N) : N :=
  if n <? 10 then 48 + n else 87 + n.

(** ['\\u{0:04x}'.format(n)] *)
Definition u_escape (n : N) : str :=
  [92; 117; hexdigit (N.land (N.shiftr n 12) 15); hexdigit (N.land (N.shiftr n 8) 15);
   hexdigit (N.land (N.shiftr n 4) 15); hexdigit (N.land n 15)].

(** The replacement of one character by [py_encode_basestring_ascii]:
    [ESCAPE_ASCII] matches a backslash, a double quote and everything
    outside [' '..'~']; [ESCAPE_DCT] has the short escapes. *)
Definition replace (c : N) : str :=
  if c =? 92 then [92; 92]
  else if c =? 34 then [92; 34]
  else if (32 <=? c) && (c <=? 126) then [c]
  else if c =? 8 then [92; 98]
  else if c =? 12 then [92; 102]
  else if c =? 10 then [92; 110]
  else if c =? 13 then [92; 114]
  else if c =? 9 then [92; 116]
  else if c <? 0x10000 then u_escape c
  else
    let n := c - 0x10000 in
    let s1 := N.lor 0xd800 (N.land (N.shiftr n 10) 0x3ff) in
    let s2 := N.lor 0xdc00 (N.land n 0x3ff) in
    u_escape s1 ++ u_escape s2.

Definition escape (s : str) : str := flat_map replace s.

(** [encode_basestring_ascii]: the default string encoder
    ([ensure_ascii=True]). *)
Definition encode_basestring_ascii (s : str) : str :=
  [34] ++ escape s ++ [34].

(** The [indent] argument of [json.dumps].  [IndentInt n] covers integers
    and, since [bool] is a subclass of [int], [False] (0) and [True] (1). *)
Inductive indent_arg := IndentNone | IndentInt (n : nat) | IndentStr (s : str).

Definition py_False : indent_arg := IndentInt 0.

(** [' ' * _indent] for an integer, the string itself otherwise. *)
Definition indent_unit (i : indent_arg) : option str :=
  match i with
  | IndentNone => None
  | IndentInt n => Some (repeat 32 n)
  | IndentStr s => Some s
  end.

(** [JSONEncoder.__init__]: [', '] unless an indent is given. *)
Definition item_separator (i : indent_arg) : str :=
  match i with
  | IndentNone => [44; 32]
  | _ => [44]
  end.

Definition key_separator : str := [58; 32].

Fixpoint str_mul (s : str) (n : nat) : str :=
  match n with
  | O => []
  | S n' => s ++ str_mul s n'
  end.

Fixpoint encode_items (sep : str) (first : bool) (items : list (str * str)) : str :=
  match items with
  | [] => []
  | (key, value) :: items' =>
      (if first then [] else sep)
        ++ encode_basestring_ascii key ++ key_separator
        ++ encode_basestring_ascii value
        ++ encode_items sep false items'
  end.

(** [_iterencode_dict] on a dictionary whose values are strings, at
    indent level [level]. *)
Definition iterencode_dict (i : indent_arg) (level : nat) (dct : list (str * str)) : str :=
  match dct with
  | [] => [123; 125]
  | _ =>
      match indent_unit i with
      | Some unit =>
          let newline_indent := 10 :: str_mul unit (S level) in
          [123] ++ newline_indent
            ++ encode_items (item_separator i ++ newline_indent) true dct
            ++ (10 :: str_mul unit level) ++ [125]
      | None =>
          [123] ++ encode_items (item_separator i) true dct ++ [125]
      end
  end.

(** [json.dumps(obj, indent=i)] for a [Dict[str, str]]. *)
Definition dumps (i : indent_arg) (obj : list (str * str)) : str :=
  iterencode_dict i 0 obj.

End JsonEncoder.

(** ** json.loads *)

Module JsonDecoder.

(** The result of scanning a prefix of the text: the value and the text
    after it, [DecodeError] where the decoder raises [JSONDecodeError]
    (or the scanner's internal [StopIteration], which [raw_decode] turns
    into one), [Exhausted] where the recursion budget of this embedding
    ran out. *)
Inductive scan (A : Type) : Type :=
| Scanned (a : A) (rest : str)
| DecodeError
| Exhausted.
Arguments Scanned {A} a rest.
Arguments DecodeError {A}.
Arguments Exhausted {A}.

(** [WHITESPACE_STR = ' \t\n\r'] *)
Definition is_ws (c : N) : bool :=
  (c =? 32) || (c =? 9) || (c =? 10) || (c =? 13).

(** [_w(s, end).end()] *)
Fixpoint skip_ws (s : str) : str :=
  match s with
  | [] => []
  | c :: r => if is_ws c then skip_ws r else s
  end.

Definition hexval (c : N) : option N :=
  if (48 <=? c) && (c <=? 57) then Some (c - 48)
  else if (97 <=? c) && (c <=? 102) then Some (c - 87)
  else if (65 <=? c) && (c <=? 70) then Some (c - 55)
  else None.

(** [_decode_uXXXX] on the four characters after [\u]; [None] stands for
    its [JSONDecodeError]. *)
Definition decode_uXXXX (a b c d : N) : option N :=
  match hexval a, hexval b, hexval c, hexval d with
  | Some x3, Some x2, Some x1, Some x0 =>
      Some (((x3 * 16 + x2) * 16 + x1) * 16 + x0)
  | _, _, _, _ => None
  end.

(** The table [BACKSLASH]. *)
Definition BACKSLASH (esc : N) : option N :=
  if esc =? 34 then Some 34
  else if esc =? 92 then Some 92
  else if esc =? 47 then Some 47
  else if esc =? 98 then Some 8
  else if esc =? 102 then Some 12
  else if esc =? 110 then Some 10
  else if esc =? 114 then Some 13
  else if esc =? 116 then Some 9
  else None.

Definition append_char (char : N) (r : scan str) : scan str :=
  match r with
  | Scanned chunks rest => Scanned (char :: chunks) rest
  | DecodeError => DecodeError
  | Exhausted => Exhausted
  end.

(** [scanstring(s, end, strict=True)]: [s] starts right after the opening
    quote; the result carries the text after the closing quote. *)
Fixpoint scanstring (s : str) : scan str :=
  match s with
  | [] => DecodeError
  | c :: r =>
      if c =? 34 then Scanned [] r
      else if c =? 92 then
        match r with
        | [] => DecodeError
        | esc :: r1 =>
            if esc =? 117 then
              match r1 with
              | a :: b :: c' :: d :: r2 =>
                  match decode_uXXXX a b c' d with
                  | None => DecodeError
                  | Some uni =>
                      if Str.is_high_surrogate uni then
                        match r2 with
                        | bs :: u :: r3 =>
                            if (bs =? 92) && (u =? 117) then
                              match r3 with
                              | a2 :: b2 :: c2 :: d2 :: r4 =>
                                  match decode_uXXXX a2 b2 c2 d2 with
                                  | None => DecodeError
                                  | Some uni2 =>
                                      if Str.is_low_surrogate uni2 then
                                        append_char
                                          (0x10000 + N.lor (N.shiftl (uni - 0xd800) 10) (uni2 - 0xdc00))
                                          (scanstring r4)
                                      else append_char uni (scanstring r2)
                                  end
                              | _ => DecodeError
                              end
                            else append_char uni (scanstring r2)
                        | _ => append_char uni (scanstring r2)
                        end
                      else append_char uni (scanstring r2)
                  end
              | _ => DecodeError
              end
            else
              match BACKSLASH esc with
              | Some char => append_char char (scanstring r1)
              | None => DecodeError
              end
        end
      else if c <? 32 then DecodeError
      else append_char c (scanstring r)
  end.

Definition is_digit (c : N) : bool := (48 <=? c) && (c <=? 57).

(** The longest run of digits at the start of [s], and what follows. *)
Fixpoint span_digits (s : str) : str * str :=
  match s with
  | [] => ([], [])
  | c :: r =>
      if is_digit c then let (ds, rest) := span_digits r in (c :: ds, rest)
      else ([], s)
  end.

(** Group 1 of [NUMBER_RE]: an optional minus sign, then either a single
    zero or a non-zero digit followed by digits. *)
Definition match_integer (s : str) : option (str * str) :=
  let (sign, s1) :=
    match s with
    | c :: r => if c =? 45 then ([45], r) else ([], s)
    | [] => ([], s)
    end in
  match s1 with
  | c :: r =>
      if c =? 48 then Some (sign ++ [48], r)
      else if is_digit c then
        let (ds, rest) := span_digits r in Some (sign ++ c :: ds, rest)
      else None
  | [] => None
  end.

(** Group 2, optional: a dot and at least one digit. *)
Definition match_frac (s : str) : option str * str :=
  match s with
  | c :: r =>
      if c =? 46 then
        match span_digits r with
        | ([], _) => (None, s)
        | (ds, rest) => (Some (46 :: ds), rest)
        end
      else (None, s)
  | [] => (None, s)
  end.

(** Group 3, optional: [e] or [E], an optional sign, at least one digit. *)
Definition match_exp (s : str) : option str * str :=
  match s with
  | e :: r =>
      if (e =? 101) || (e =? 69) then
        let (sign, r1) :=
          match r with
          | c :: r' => if (c =? 45) || (c =? 43) then ([c], r') else ([], r)
          | [] => ([], r)
          end in
        match span_digits r1 with
        | ([], _) => (None, s)
        | (ds, rest) => (Some (e :: sign ++ ds), rest)
        end
      else (None, s)
  | [] => (None, s)
  end.

(** [int(integer)] on the text matched by group 1. *)
Definition parse_digits (ds : str) : Z :=
  fold_left (fun acc c => (acc * 10 + Z.of_N (c - 48))%Z) ds 0%Z.

Definition parse_int (integer : str) : Z :=
  match integer with
  | c :: ds => if c =? 45 then (- parse_digits ds)%Z else parse_digits integer
  | [] => 0%Z
  end.

Definition or_empty (o : option str) : str :=
  match o with Some x => x | None => [] end.

(** [match_number] and the conversion of its groups in [_scan_once]. *)
Definition scan_number (s : str) : option (pyval * str) :=
  match match_integer s with
  | None => None
  | Some (integer, s1) =>
      let (frac, s2) := match_frac s1 in
      let (exp, s3) := match_exp s2 in
      match frac, exp with
      | None, None => Some (PyInt (parse_int integer), s3)
      | _, _ => Some (PyFloat (integer ++ or_empty frac ++ or_empty exp), s3)
      end
  end.

(** [string[idx:idx + len(p)] == p]; gives the text after [p]. *)
Fixpoint starts_with (p s : str) : option str :=
  match p, s with
  | [], _ => Some s
  | x :: p', y :: s' => if x =? y then starts_with p' s' else None
  | _ :: _, [] => None
  end.

Definition lift_str (r : scan str) : scan pyval :=
  match r with
  | Scanned x rest => Scanned (PyStr x) rest
  | DecodeError => DecodeError
  | Exhausted => Exhausted
  end.

(** The literals and numbers of [_scan_once], tried in its order: [null],
    [true], [false], a number, [NaN], [Infinity], [-Infinity]. *)
Definition scan_atom (s : str) : scan pyval :=
  match starts_with (py "null") s with
  | Some rest => Scanned PyNone rest
  | None =>
  match starts_with (py "true") s with
  | Some rest => Scanned (PyBool true) rest
  | None =>
  match starts_with (py "false") s with
  | Some rest => Scanned (PyBool false) rest
  | None =>
  match scan_number s with
  | Some (res, rest) => Scanned res rest
  | None =>
  match starts_with (py "NaN") s with
  | Some rest => Scanned (PyFloat (py "NaN")) rest
  | None =>
  match starts_with (py "Infinity") s with
  | Some rest => Scanned (PyFloat (py "Infinity")) rest
  | None =>
  match starts_with (py "-Infinity") s with
  | Some rest => Scanned (PyFloat (py "-Infinity")) rest
  | None => DecodeError
  end end end end end end end.

(** [_scan_once], [JSONObject] and [JSONArray].  [object_loop] is the
    [while True] of [JSONObject], entered right after the opening quote of
    a key with the pairs read so far; [array_loop] is the one of
    [JSONArray], entered where a value is expected.  Every call spends one
    unit of [fuel]. *)
Fixpoint scan_once (fuel : nat) (s : str) {struct fuel} : scan pyval :=
  match fuel with
  | O => Exhausted
  | S fuel' =>
      match s with
      | [] => DecodeError
      | nextchar :: r =>
          if nextchar =? 34 then lift_str (scanstring r)
          else if nextchar =? 123 then
            match skip_ws r with
            | c :: r' =>
                if c =? 125 then Scanned (PyDict []) r'
                else if c =? 34 then object_loop fuel' r' []
                else DecodeError
            | [] => DecodeError
            end
          else if nextchar =? 91 then
            match skip_ws r with
            | c :: r' =>
                if c =? 93 then Scanned (PyList []) r'
                else array_loop fuel' (c :: r') []
            | [] => array_loop fuel' [] []
            end
          else scan_atom s
      end
  end

with object_loop (fuel : nat) (s : str) (pairs : list (str * pyval))
       {struct fuel} : scan pyval :=
  match fuel with
  | O => Exhausted
  | S fuel' =>
      match scanstring s with
      | Scanned key rest =>
          match skip_ws rest with
          | colon :: rest1 =>
              if colon =? 58 then
                match scan_once fuel' (skip_ws rest1) with
                | Scanned value rest2 =>
                    let pairs' := pairs ++ [(key, value)] in
                    match skip_ws rest2 with
                    | nextchar :: rest3 =>
                        if nextchar =? 125 then
                          Scanned (PyDict (Dict.of_pairs pairs')) rest3
                        else if nextchar =? 44 then
                          match skip_ws rest3 with
                          | q :: rest4 =>
                              if q =? 34 then object_loop fuel' rest4 pairs'
                              else DecodeError
                          | [] => DecodeError
                          end
                        else DecodeError
                    | [] => DecodeError
                    end
                | DecodeError => DecodeError
                | Exhausted => Exhausted
                end
              else DecodeError
          | [] => DecodeError
          end
      | DecodeError => DecodeError
      | Exhausted => Exhausted
      end
  end

with array_loop (fuel : nat) (s : str) (values : list pyval)
       {struct fuel} : scan pyval :=
  match fuel with
  | O => Exhausted
  | S fuel' =>
      match scan_once fuel' s with
      | Scanned value rest =>
          let values' := values ++ [value] in
          match skip_ws rest with
          | nextchar :: rest1 =>
              if nextchar =? 93 then Scanned (PyList values') rest1
              else if nextchar =? 44 then array_loop fuel' (skip_ws rest1) values'
              else DecodeError
          | [] => DecodeError
          end
      | DecodeError => DecodeError
      | Exhausted => Exhausted
      end
  end.

(** What [json.loads] does with a [str]: it returns an object, or raises
    [JSONDecodeError] ([InvalidDocument]); [Unfinished] is this embedding's
    budget running out, which [loads_total] excludes. *)
Inductive loaded : Type :=
| Loaded (obj : pyval)
| InvalidDocument
| Unfinished.

(** [JSONDecoder.decode]: leading white space, one value, trailing white
    space, then the end of the text. *)
Definition decode (s : str) : loaded :=
  match scan_once (2 * List.length s + 2)%nat (skip_ws s) with
  | Scanned obj rest =>
      match skip_ws rest with
      | [] => Loaded obj
      | _ :: _ => InvalidDocument
      end
  | DecodeError => InvalidDocument
  | Exhausted => Unfinished
  end.

(** [json.loads(s)] for [s : str]: a leading byte-order mark is refused. *)
Definition loads (s : str) : loaded :=
  match s with
  | c :: _ => if c =? 0xfeff then InvalidDocument else decode s
  | [] => decode s
  end.

End JsonDecoder.

(** ** Exceptions, effects and the result backend *)

(** An exception object as this module sees it: its class, whether the class
    derives from [Exception] (what [isinstance(e, Exception)] and
    [except Exception] test), and the text of [str(e)]. *)
Record PyExc : Type := mkPyExc {
  exc_class : str;
  exc_is_Exception : bool;
  exc_str : str
}.

(** What can be in flight after a [raise]: an exception object that came
    from the Forwarder, or an error raised by the interpreter or by the
    [json] package inside this module (the texts of their messages are not
    modelled).  [OutOfFuel] stands for the decoder's [Unfinished]. *)
Inductive raised : Type :=
| Raised (e : PyExc)
| TypeError
| KeyError (key : str)
| JSONDecodeError
| OutOfFuel.

Definition is_Exception (r : raised) : bool :=
  match r with
  | Raised e => exc_is_Exception e
  | TypeError | KeyError _ | JSONDecodeError => true
  | OutOfFuel => false
  end.

Inductive level : Type := WARNING | ERROR.

(** The log messages of the module, with the values their f-strings
    interpolate. *)
Inductive message : Type :=
| Setting_custom_error_response (task_id : str)
| Ignoring_positional_arguments (n : nat) (ignored_args : list pyval)
| Ignoring_keyword_arguments (n : nat) (ignored_kwargs : list (str * pyval))
| Celery_service_failed_to_respond.

(** The keyword arguments of [app.Worker(...)]. *)
Record worker_options : Type := mkWorker {
  queues : list str;
  concurrency : Z;
  loglevel : str;
  optimization : str;
  pool : str
}.

Inductive outcome (A : Type) : Type :=
| Return (a : A)
| Raise (r : raised).
Arguments Return {A}.
Arguments Raise {A}.

(** A computation: how it ends and the effects it had. *)
Definition M (E A : Type) : Type := outcome A * list E.

Definition ret {E A} (a : A) : M E A := (Return a, []).
Definition raise {E A} (r : raised) : M E A := (Raise r, []).
Definition emit {E} (ev : E) : M E unit := (Return tt, [ev]).

Definition bind {E A B} (m : M E A) (k : A -> M E B) : M E B :=
  match m with
  | (Return a, t) => let (r, t') := k a in (r, t ++ t')
  | (Raise r, t) => (Raise r, t)
  end.

Notation "x <- m ;; k" := (bind m (fun x => k))
  (at level 61, m at next level, right associativity).
Notation "m ;; k" := (bind m (fun _ => k))
  (at level 61, right associativity).

(** [try: body / except Exception: handler]: the handler runs for what
    derives from [Exception]; anything else passes through. *)
Definition try_except_Exception {E A} (body : M E A) (handler : raised -> M E A) : M E A :=
  match body with
  | (Return a, t) => (Return a, t)
  | (Raise r, t) =>
      if is_Exception r then let (o, t') := handler r in (o, t ++ t')
      else (Raise r, t)
  end.

(** The result backend of a task: how it names the record of a task id, and
    what [get] finds under a key ([None] when there is nothing). *)
Record Backend : Type := mkBackend {
  get_key_for_task : str -> str;
  get : str -> option str
}.

(** The part of [self] that [after_return] uses: [self.backend] and
    [self.request.id], which [update_state] takes as the task id. *)
Record Task : Type := mkTask {
  backend : Backend;
  request_id : str
}.

(** [ErrorResponse], a [TypedDict]. *)
Record ErrorResponse : Type := mkErrorResponse {
  error : str;
  error_metadata : str
}.

(** The dictionary behind an [ErrorResponse], in its key order. *)
Definition ErrorResponse_items (r : ErrorResponse) : list (str * str) :=
  [(py "error", error r); (py "error_metadata", error_metadata r)].

(** The terminal value handed to [after_return]: [Union[dict, Exception]]. *)
Inductive retval : Type :=
| Value (v : pyval)
| Exc (e : PyExc).

(** [celery.states.FAILURE] *)
Definition FAILURE : str := py "FAILURE".

(** [BrokerType], as far as this module names its members. *)
Inductive BrokerType : Type := SQS | REDIS.

(** Truth value of an [Optional[str]]: [None] and the empty string are
    false. *)
Definition truthy (o : option str) : bool :=
  match o with
  | Some (_ :: _) => true
  | Some [] | None => false
  end.

(** The Forwarder is an opaque callable: on a payload it returns a value
    or raises an exception object. *)
Definition Forwarder : Type := pyval -> PyExc + pyval.

(** What this module imports from the rest of the package: the enumeration
    [TaskVisibility] with its member [VISIBILITY_24H] (core.celery), the text
    of an exception's stack trace (core.utils.format), the two task names
    (common.constants), the values of the [BrokerType] members
    (common.dtos.model_endpoints), the bucket of [infra_config()]
    (core.config), and the loading of a Forwarder from a named configuration
    (inference.forwarding.forwarding). *)
Class Package : Type := {
  TaskVisibility : Type;
  VISIBILITY_24H : TaskVisibility;
  format_stacktrace : PyExc -> str;
  LIRA_CELERY_TASK_NAME : str;
  DEFAULT_CELERY_TASK_NAME : str;
  BrokerType_value : BrokerType -> str;
  infra_config_s3_bucket : str;
  load_named_config : str -> option (list str) -> raised + pyval;
  LoadForwarder_load : pyval -> raised + Forwarder
}.

Section Worker.

Context {pkg : Package}.

(** [celery_app(...)]'s keyword arguments: the settings of the application
    this module builds.  [broker_transport_options] is
    [{"predefined_queues": {queue_name: {"url": sqs_url}}}] or [None]. *)
Record celery_settings : Type := mkSettings {
  name : option str;
  s3_bucket : str;
  task_visibility : TaskVisibility;
  broker_type : str;
  broker_transport_options :
    option (list (str * list (option str * list (str * option str))))
}.

(** The effects of the module, in the order they happen. *)
Inductive event : Type :=
| Log (lvl : level) (msg : message) (exc_info : option raised)
| BackendGet (key : str)
| UpdateState (task_id : str) (state : str) (meta : list (str * pyval))
| ForwarderCall (payload : pyval)
| WorkerStart (settings : celery_settings) (task_names : list str)
    (options : worker_options).

Definition Eff (A : Type) : Type := M event A.

Definition logger_warning (msg : message) : Eff unit :=
  emit (Log WARNING msg None).

(** [logger.exception(msg)]: severity ERROR, with the exception being
    handled attached. *)
Definition logger_exception (msg : message) (current : raised) : Eff unit :=
  emit (Log ERROR msg (Some current)).

(** [obj[key]] with a [str] key: only a [dict] can answer; a missing key
    is a [KeyError], any other object a [TypeError]. *)
Definition getitem (obj : pyval) (key : str) : Eff pyval :=
  match obj with
  | PyDict d =>
      match Dict.get d key with
      | Some v => ret v
      | None => raise (KeyError key)
      end
  | _ => raise TypeError
  end.

(** [backend.get(key)] *)
Definition backend_get (b : Backend) (key : str) : Eff (option str) :=
  emit (BackendGet key) ;; ret (get b key).

(** [json.loads] on what the backend returned: [None] is a [TypeError]. *)
Definition json_loads (s : option str) : Eff pyval :=
  match s with
  | None => raise TypeError
  | Some text =>
      match JsonDecoder.loads text with
      | JsonDecoder.Loaded obj => ret obj
      | JsonDecoder.InvalidDocument => raise JSONDecodeError
      | JsonDecoder.Unfinished => raise OutOfFuel
      end
  end.

Definition raw_celery_response (b : Backend) (task_id : str) : Eff pyval :=
  let key_info := get_key_for_task b task_id in
  info_as_str <- backend_get b key_info ;;
  info <- json_loads info_as_str ;;
  ret info.

Definition error_response (msg : str) (e_unhandled : PyExc) : ErrorResponse :=
  let stacktrace := format_stacktrace e_unhandled in
  {| error := exc_str e_unhandled;
     error_metadata := msg ++ [10] ++ stacktrace |}.

(** [json.dumps(error_payload, indent=False)] *)
Definition json_dumps_indent_False (payload : ErrorResponse) : str :=
  JsonEncoder.dumps JsonEncoder.py_False (ErrorResponse_items payload).

(** [self.update_state(state=..., meta=...)]: the task id defaults to
    [self.request.id]. *)
Definition update_state (self : Task) (state : str) (meta : list (str * pyval)) : Eff unit :=
  emit (UpdateState (request_id self) state meta).

(** [isinstance(retval, Exception)], giving the exception when it holds. *)
Definition as_Exception (r : retval) : option PyExc :=
  match r with
  | Exc e => if exc_is_Exception e then Some e else None
  | Value _ => None
  end.

(** [ErrorHandlingTask.after_return]; [args], [kwargs] and [einfo] are not
    used by its body. *)
Definition after_return (self : Task) (status : str) (retval : retval)
    (task_id : str) : Eff unit :=
  match (if Str.eqb status FAILURE then as_Exception retval else None) with
  | Some err =>
      logger_warning (Setting_custom_error_response task_id) ;;
      info <- raw_celery_response (backend self) task_id ;;
      result <- getitem info (py "result") ;;
      let error_payload := error_response (py "Internal failure") err in
      exc_type <- getitem result (py "exc_type") ;;
      exc_message <- getitem result (py "exc_message") ;;
      let custom := json_dumps_indent_False error_payload in
      update_state self FAILURE
        [(py "exc_type", exc_type);
         (py "exc_message", exc_message);
         (py "custom", PyStr custom)]
  | None => ret tt
  end.

(** ** The application and its tasks *)

(** [forwarder(payload)] *)
Definition call_forwarder (forwarder : Forwarder) (payload : pyval) : Eff pyval :=
  emit (ForwarderCall payload) ;;
  match forwarder payload with
  | inr v => ret v
  | inl e => raise (Raised e)
  end.

Definition exec_func (forwarder : Forwarder) (payload : pyval)
    (ignored_args : list pyval) (ignored_kwargs : list (str * pyval)) : Eff pyval :=
  (if (0 <? List.length ignored_args)%nat
   then logger_warning
          (Ignoring_positional_arguments (List.length ignored_args) ignored_args)
   else ret tt) ;;
  (if (0 <? List.length ignored_kwargs)%nat
   then logger_warning
          (Ignoring_keyword_arguments (List.length ignored_kwargs) ignored_kwargs)
   else ret tt) ;;
  try_except_Exception
    (call_forwarder forwarder payload)
    (fun current =>
       logger_exception Celery_service_failed_to_respond current ;;
       raise current).

(** Calling the task object [exec_func] runs its function in place. *)
Definition exec_func_pre_lira (forwarder : Forwarder) (payload : pyval)
    (ignored_args : list pyval) (ignored_kwargs : list (str * pyval)) : Eff pyval :=
  exec_func forwarder payload ignored_args ignored_kwargs.

Inductive task_base : Type := ErrorHandlingTask.

(** A task as [app.task(base=..., name=..., track_started=...)] registers
    it. *)
Record registered_task : Type := mkRegistered {
  task_name : str;
  base : task_base;
  track_started : bool;
  run : pyval -> list pyval -> list (str * pyval) -> Eff pyval
}.

(** The application: the settings it was created with and its task
    registry, in registration order. *)
Record Celery : Type := mkCelery {
  settings : celery_settings;
  tasks : list registered_task
}.

Definition celery_app (kwargs : celery_settings) : Celery :=
  {| settings := kwargs; tasks := [] |}.

(** [app.tasks.get(name)] *)
Definition lookup_task (app : Celery) (name : str) : option registered_task :=
  find (fun t => Str.eqb (task_name t) name) (tasks app).

(** The decorator [app.task(...)]: a name that is already registered keeps
    its task. *)
Definition app_task (app : Celery) (t : registered_task) : Celery :=
  match lookup_task app (task_name t) with
  | Some _ => app
  | None => {| settings := settings app; tasks := tasks app ++ [t] |}
  end.

Definition create_celery_service (forwarder : Forwarder)
    (task_visibility : TaskVisibility) (queue_name : option str)
    (sqs_url : option str) : Celery :=
  let app :=
    celery_app
      {| name := None;
         s3_bucket := infra_config_s3_bucket;
         task_visibility := task_visibility;
         broker_type :=
           BrokerType_value (if truthy sqs_url then SQS else REDIS);
         broker_transport_options :=
           if truthy sqs_url
           then Some [(py "predefined_queues", [(queue_name, [(py "url", sqs_url)])])]
           else None |} in
  let app :=
    app_task app
      {| task_name := LIRA_CELERY_TASK_NAME; base := ErrorHandlingTask;
         track_started := true; run := exec_func forwarder |} in
  let app :=
    app_task app
      {| task_name := DEFAULT_CELERY_TASK_NAME; base := ErrorHandlingTask;
         track_started := true; run := exec_func_pre_lira forwarder |} in
  app.

(** A message for task [name] with positional arguments [payload :: args]
    and keyword arguments [kwargs]: the registered function runs on them;
    [None] when no task has that name. *)
Definition run_task (app : Celery) (name : str) (payload : pyval)
    (args : list pyval) (kwargs : list (str * pyval)) : option (Eff pyval) :=
  match lookup_task app name with
  | Some t => Some (run t payload args kwargs)
  | None => None
  end.

(** [app.Worker(...)] followed by [worker.start()]; the worker's loop is
    outside this module. *)
Definition start_celery_service (app : Celery) (queue : str) (concurrency : Z) : Eff unit :=
  emit (WorkerStart (settings app) (map task_name (tasks app))
          {| queues := [queue];
             concurrency := concurrency;
             loglevel := py "INFO";
             optimization := py "fair";
             pool := py "solo" |}).

(** The namespace [parser.parse_args()] returns. *)
Record Namespace : Type := mkNamespace {
  args_config : str;
  args_set : option (list str);
  args_task_visibility : str;
  args_num_workers : Z;
  args_queue : str;
  args_sqs_url : option str
}.

Definition lift {A} (r : raised + A) : Eff A :=
  match r with
  | inr a => ret a
  | inl e => raise e
  end.

(** [entrypoint], from the parsed arguments on. *)
Definition entrypoint (args : Namespace) : Eff unit :=
  forwarder_config <- lift (load_named_config (args_config args) (args_set args)) ;;
  async_config <- getitem forwarder_config (py "async") ;;
  forwader <- lift (LoadForwarder_load async_config) ;;
  let app :=
    create_celery_service forwader VISIBILITY_24H
      (Some (args_queue args)) (args_sqs_url args) in
  start_celery_service app (args_queue args) (args_num_workers args).

(** ** Vocabulary of the statements *)

(** [obj.get(key)] read as a mapping: [None] when [obj] is not a
    dictionary or has no such key. *)
Definition field (obj : pyval) (key : str) : option pyval :=
  match obj with
  | PyDict d => Dict.get d key
  | _ => None
  end.

(** A string whose code points are in range and in which no high
    surrogate is directly followed by a low one. *)
Definition json_safe (s : str) : Prop :=
  Str.valid s /\ Str.has_surrogate_pair s = false.

Definition json_safeb (s : str) : bool :=
  forallb (fun c => c <? 0x110000) s && negb (Str.has_surrogate_pair s).

(** The text at [r2] does not start with the escape of a low surrogate. *)
Definition no_low_escape (r2 : str) : Prop :=
  match r2 with
  | bs :: u :: r3 =>
      (bs =? 92) && (u =? 117) = true ->
      exists a b c d r4 x,
        r3 = a :: b :: c :: d :: r4
        /\ JsonDecoder.decode_uXXXX a b c d = Some x
        /\ Str.is_low_surrogate x = false
  | _ => True
  end.

(** A literal in which the apostrophe stands for the double quote. *)
Definition sq (x : string) : str :=
  map (fun c => if c =? 39 then 34 else c) (py x).

(** The warnings of [exec_func] about arguments it ignores. *)
Definition argument_warnings (ignored_args : list pyval)
    (ignored_kwargs : list (str * pyval)) : list event :=
  (if (0 <? List.length ignored_args)%nat
   then [Log WARNING
           (Ignoring_positional_arguments (List.length ignored_args) ignored_args) None]
   else [])
  ++ (if (0 <? List.length ignored_kwargs)%nat
      then [Log WARNING
              (Ignoring_keyword_arguments (List.length ignored_kwargs) ignored_kwargs) None]
      else []).

Definition is_warning (ev : event) : Prop :=
  exists msg, ev = Log WARNING msg None.

(** The payloads the Forwarder was called with, in order. *)
Definition forwarder_calls (trace : list event) : list pyval :=
  flat_map (fun ev => match ev with ForwarderCall p => [p] | _ => [] end) trace.

(** The visibility setting of every application a worker was started on. *)
Definition started_visibilities (trace : list event) : list TaskVisibility :=
  flat_map
    (fun ev => match ev with WorkerStart st _ _ => [task_visibility st] | _ => [] end)
    trace.

(** [args] with another value for [--task-visibility]. *)
Definition with_task_visibility (args : Namespace) (v : str) : Namespace :=
  {| args_config := args_config args;
     args_set := args_set args;
     args_task_visibility := v;
     args_num_workers := args_num_workers args;
     args_queue := args_queue args;
     args_sqs_url := args_sqs_url args |}.

(** The envelope an error payload should read back as. *)
Definition envelope (r : ErrorResponse) : pyval :=
  PyDict [(py "error", PyStr (error r));
          (py "error_metadata", PyStr (error_metadata r))].

End Worker.

(** ** A scenario

    The queue is "inference", there is no SQS URL, and the Forwarder raises
    [ValueError("bad input")] on anything but a dictionary.  The result
    backend holds the record the queue runtime wrote for task "t-1". *)

Module Scenario.

Definition bad_input : PyExc :=
  {| exc_class := py "ValueError"; exc_is_Exception := true; exc_str := py "bad input" |}.

(** An exception whose message is a high surrogate followed by a low one,
    two code points. *)
Definition split_emoji : PyExc :=
  {| exc_class := py "ValueError"; exc_is_Exception := true;
     exc_str := [0xd83d; 0xde00] |}.

Definition keyboard_interrupt : PyExc :=
  {| exc_class := py "KeyboardInterrupt"; exc_is_Exception := false; exc_str := [] |}.

Definition stacktrace (e : PyExc) : str :=
  py "Traceback (most recent call last):" ++ [10]
    ++ exc_class e ++ py ": " ++ exc_str e ++ [10].

Definition forwarder : Forwarder :=
  fun payload =>
    match payload with
    | PyDict _ => inr payload
    | _ => inl bad_input
    end.

Definition pkg : Package :=
  {| TaskVisibility := N;
     VISIBILITY_24H := 86400;
     format_stacktrace := stacktrace;
     LIRA_CELERY_TASK_NAME := py "celery_service.exec_func";
     DEFAULT_CELERY_TASK_NAME := py "async_inference.tasks.predict";
     BrokerType_value := fun b => match b with SQS => py "sqs" | REDIS => py "redis" end;
     infra_config_s3_bucket := py "bucket";
     load_named_config := fun _ _ => inr (PyDict [(py "async", PyDict [])]);
     LoadForwarder_load := fun _ => inr forwarder |}.

Definition key_for (task_id : str) : str := py "celery-task-meta-" ++ task_id.

Definition record : str :=
  sq "{'status': 'FAILURE', 'result': {'exc_type': 'ValueError', 'exc_message': ['bad input'], 'exc_module': 'builtins'}, 'traceback': null, 'children': [], 'date_done': null, 'task_id': 't-1'}".

Definition result : pyval :=
  PyDict [(py "exc_type", PyStr (py "ValueError"));
          (py "exc_message", PyList [PyStr (py "bad input")]);
          (py "exc_module", PyStr (py "builtins"))].

Definition info : pyval :=
  PyDict [(py "status", PyStr (py "FAILURE"));
          (py "result", result);
          (py "traceback", PyNone);
          (py "children", PyList []);
          (py "date_done", PyNone);
          (py "task_id", PyStr (py "t-1"))].

(** The record of the task that failed with [split_emoji], as the queue
    runtime serializes it. *)
Definition split_emoji_record : str :=
  sq "{'status': 'FAILURE', 'result': {'exc_type': 'ValueError', 'exc_message': ['\ud83d\ude00'], 'exc_module': 'builtins'}, 'traceback': null, 'children': [], 'date_done': null, 'task_id': 't-5'}".

Definition store (key : str) : option str :=
  if Str.eqb key (key_for (py "t-1")) then Some record
  else if Str.eqb key (key_for (py "t-2")) then Some (sq "{'status': 'FAILURE'")
  else if Str.eqb key (key_for (py "t-3")) then Some (sq "{'status': 'FAILURE', 'result': null}")
  else if Str.eqb key (key_for (py "t-5")) then Some split_emoji_record
  else None.

(** The task object while the task [task_id] is being finished. *)
Definition task (task_id : str) : Task :=
  {| backend := {| get_key_for_task := key_for; get := store |};
     request_id := task_id |}.

(** The text published under "custom" for [bad_input]: three lines. *)
Definition custom : str :=
  [123; 10]
    ++ sq "'error': 'bad input'," ++ [10]
    ++ sq "'error_metadata': 'Internal failure\nTraceback (most recent call last):\nValueError: bad input\n'"
    ++ [10; 125].

Definition args : Namespace :=
  {| args_config := py "config.yaml";
     args_set := None;
     args_task_visibility := py "VISIBILITY_1H";
     args_num_workers := 1%Z;
     args_queue := py "inference";
     args_sqs_url := None |}.

End Scenario.

(** ** Vocabulary of further statements *)

(** What a JSON reader makes of the code points of [s] once each was
    written as an escape: a high surrogate directly followed by a low one
    comes back as the one character the two encode. *)
Fixpoint merge_surrogates (s : str) : str :=
  match s with
  | [] => []
  | c :: r =>
      match r with
      | d :: r' =>
          if Str.is_high_surrogate c && Str.is_low_surrogate d
          then (0x10000 + N.lor (N.shiftl (c - 0xd800) 10) (d - 0xdc00))
                 :: merge_surrogates r'
          else c :: merge_surrogates r
      | [] => [c]
      end
  end.

(** The error [obj[key]] ends in when [obj] has no item [key]: a [KeyError]
    from a dictionary, a [TypeError] from anything else. *)
Definition subscript_error (obj : pyval) (key : str) : raised :=
  match obj with
  | PyDict _ => KeyError key
  | _ => TypeError
  end.

(** The [exc_type] and [exc_message] of the record the backend holds for
    [task_id], when the record is there, is valid JSON and has a ["result"]
    mapping with both. *)
Definition stored_failure (b : Backend) (task_id : str) : option (pyval * pyval) :=
  match get b (get_key_for_task b task_id) with
  | Some text =>
      match JsonDecoder.loads text with
      | JsonDecoder.Loaded info =>
          match field info (py "result") with
          | Some result =>
              match field result (py "exc_type"), field result (py "exc_message") with
              | Some t, Some m => Some (t, m)
              | _, _ => None
              end
          | None => None
          end
      | _ => None
      end
  | None => None
  end.

Section Traces.

Context {pkg : Package}.

(** The keys read from the backend, in order. *)
Definition backend_reads (trace : list event) : list str :=
  flat_map (fun ev => match ev with BackendGet key => [key] | _ => [] end) trace.

(** The state updates published: task id, state and meta of each. *)
Definition state_updates (trace : list event) : list (str * str * list (str * pyval)) :=
  flat_map
    (fun ev =>
       match ev with
       | UpdateState task_id state meta => [(task_id, state, meta)]
       | _ => []
       end)
    trace.

(** The exceptions logged at ERROR severity. *)
Definition error_logs (trace : list event) : list (option raised) :=
  flat_map
    (fun ev => match ev with Log ERROR _ exc_info => [exc_info] | _ => [] end)
    trace.

(** The workers started: the queues and the concurrency of each. *)
Definition workers_started (trace : list event) : list (list str * Z) :=
  flat_map
    (fun ev =>
       match ev with
       | WorkerStart _ _ options => [(queues options, concurrency options)]
       | _ => []
       end)
    trace.

End Traces.

(** The scenario's package with a stack trace text that does not name the
    class of the exception. *)
Definition plain_trace_pkg : Package :=
  {| TaskVisibility := N;
     VISIBILITY_24H := 86400;
     format_stacktrace := fun _ => py "Traceback (most recent call last):";
     LIRA_CELERY_TASK_NAME := py "celery_service.exec_func";
     DEFAULT_CELERY_TASK_NAME := py "async_inference.tasks.predict";
     BrokerType_value := fun b => match b with SQS => py "sqs" | REDIS => py "redis" end;
     infra_config_s3_bucket := py "bucket";
     load_named_config := fun _ _ => inr (PyDict [(py "async", PyDict [])]);
     LoadForwarder_load := fun _ => inr Scenario.forwarder |}.

(** The same failure as [Scenario.bad_input], raised as a [TypeError]. *)
Definition bad_input_TypeError : PyExc :=
  {| exc_class := py "TypeError"; exc_is_Exception := true; exc_str := py "bad input" |}.

(** The scenario's backend with two more records: the one of "t-6" has no
    ["result"], the one of "t-7" a ["result"] without ["exc_message"]. *)
Definition sparse_store (key : str) : option str :=
  if Str.eqb key (Scenario.key_for (py "t-6")) then Some (sq "{'status': 'FAILURE'}")
  else if Str.eqb key (Scenario.key_for (py "t-7"))
  then Some (sq "{'result': {'exc_type': 'ValueError'}}")
  else Scenario.store key.

Definition sparse_task (task_id : str) : Task :=
  {| backend := {| get_key_for_task := Scenario.key_for; get := sparse_store |};
     request_id := task_id |}.

(** ** Facts about the JSON encoder and decoder *)

Import JsonEncoder JsonDecoder.
Local Ltac Zify.zify_post_hook ::= Z.to_euclidean_division_equations.

Lemma Str_eqb_eq a b : Str.eqb a b = true <-> a = b.
Proof.
  revert b; induction a as [|x a IH]; intros [|y b]; simpl; split; intros H;
    try reflexivity; try discriminate.
  - apply andb_true_iff in H as [H1 H2]. apply N.eqb_eq in H1. apply IH in H2. subst. reflexivity.
  - injection H as -> ->. rewrite N.eqb_refl. simpl. now apply IH.
Qed.

Lemma hexval_hexdigit d : d < 16 -> hexval (hexdigit d) = Some d.
Proof.
  intros H.
  assert (d = 0 \/ d = 1 \/ d = 2 \/ d = 3 \/ d = 4 \/ d = 5 \/ d = 6 \/ d = 7 \/
          d = 8 \/ d = 9 \/ d = 10 \/ d = 11 \/ d = 12 \/ d = 13 \/ d = 14 \/ d = 15) as C by lia.
  repeat (destruct C as [-> | C]; [reflexivity|]). subst; reflexivity.
Qed.

Lemma nibble_lt m : N.land m 15 < 16.
Proof.
  change 15 with (N.ones 4). rewrite N.land_ones. apply N.mod_lt. discriminate.
Qed.

Lemma nibbles n : n < 65536 ->
  ((N.land (N.shiftr n 12) 15 * 16 + N.land (N.shiftr n 8) 15) * 16
     + N.land (N.shiftr n 4) 15) * 16 + N.land n 15 = n.
Proof.
  intros H. change 15 with (N.ones 4). rewrite !N.land_ones, !N.shiftr_div_pow2.
  change (2 ^ 12) with 4096. change (2 ^ 8) with 256. change (2 ^ 4) with 16.
  lia.
Qed.

Lemma decode_u_escape n r : n < 65536 ->
  exists a b c d, u_escape n ++ r = 92 :: 117 :: a :: b :: c :: d :: r
                  /\ decode_uXXXX a b c d = Some n.
Proof.
  intros H. do 4 eexists. split; [reflexivity|].
  unfold decode_uXXXX. rewrite !hexval_hexdigit by apply nibble_lt.
  now rewrite nibbles.
Qed.
Lemma scanstring_quote r : scanstring (34 :: r) = Scanned [] r.
Proof. reflexivity. Qed.

Lemma scanstring_literal c r :
  c <> 34 -> c <> 92 -> 32 <= c ->
  scanstring (c :: r) = append_char c (scanstring r).
Proof.
  intros H1 H2 H3. cbn [scanstring].
  apply N.eqb_neq in H1, H2. rewrite H1, H2.
  destruct (c <? 32) eqn:E; [apply N.ltb_lt in E; lia | reflexivity].
Qed.

Lemma scanstring_short esc char r :
  esc <> 117 -> BACKSLASH esc = Some char ->
  scanstring (92 :: esc :: r) = append_char char (scanstring r).
Proof.
  intros H1 H2. cbn [scanstring]. change (92 =? 34) with false. change (92 =? 92) with true.
  cbv iota. apply N.eqb_neq in H1. rewrite H1, H2. reflexivity.
Qed.

Lemma scanstring_u_single a b c d uni r2 :
  decode_uXXXX a b c d = Some uni ->
  (Str.is_high_surrogate uni = true -> no_low_escape r2) ->
  scanstring (92 :: 117 :: a :: b :: c :: d :: r2) = append_char uni (scanstring r2).
Proof.
  intros H1 H2. cbn [scanstring]. change (92 =? 34) with false. change (92 =? 92) with true.
  change (117 =? 117) with true. cbv iota. rewrite H1.
  destruct (Str.is_high_surrogate uni); [|reflexivity].
  specialize (H2 eq_refl). destruct r2 as [|bs [|u r3]]; try reflexivity.
  simpl in H2. destruct ((bs =? 92) && (u =? 117)); [|reflexivity].
  destruct (H2 eq_refl) as (a2 & b2 & c2 & d2 & r4 & x & -> & E & L).
  rewrite E, L. reflexivity.
Qed.

Lemma scanstring_u_pair a b c d hi a2 b2 c2 d2 lo r4 :
  decode_uXXXX a b c d = Some hi -> Str.is_high_surrogate hi = true ->
  decode_uXXXX a2 b2 c2 d2 = Some lo -> Str.is_low_surrogate lo = true ->
  scanstring (92 :: 117 :: a :: b :: c :: d :: 92 :: 117 :: a2 :: b2 :: c2 :: d2 :: r4)
  = append_char (0x10000 + N.lor (N.shiftl (hi - 0xd800) 10) (lo - 0xdc00)) (scanstring r4).
Proof.
  intros H1 H2 H3 H4. cbn [scanstring]. change (92 =? 34) with false. change (92 =? 92) with true.
  change (117 =? 117) with true. cbv iota. rewrite H1, H2. cbn [andb]. rewrite H3, H4. reflexivity.
Qed.

Lemma lor_pow2 a b k : b < 2 ^ k -> N.lor (a * 2 ^ k) b = a * 2 ^ k + b.
Proof.
  intros H.
  assert (D : N.land (a * 2 ^ k) b = 0).
  { apply N.bits_inj. intros i. rewrite N.land_spec, N.bits_0.
    destruct (N.lt_ge_cases i k) as [L | G].
    - rewrite N.mul_pow2_bits_low by exact L. reflexivity.
    - rewrite <- (N.mod_small b (2 ^ k)) by exact H.
      rewrite N.mod_pow2_bits_high by exact G. apply andb_false_r. }
  rewrite (N.add_nocarry_lxor _ _ D). symmetry. apply N.lxor_lor. exact D.
Qed.

Lemma lor_d800 x : x < 1024 -> N.lor 0xd800 x = 0xd800 + x.
Proof. intros H. change 0xd800 with (54 * 2 ^ 10). apply lor_pow2. exact H. Qed.

Lemma lor_dc00 x : x < 1024 -> N.lor 0xdc00 x = 0xdc00 + x.
Proof. intros H. change 0xdc00 with (55 * 2 ^ 10). apply lor_pow2. exact H. Qed.

Lemma land_3ff m : N.land m 0x3ff = m mod 1024.
Proof. change 0x3ff with (N.ones 10). now rewrite N.land_ones. Qed.

Lemma replace_spec c r :
  c < 0x110000 ->
  (Str.is_high_surrogate c = true -> no_low_escape r) ->
  scanstring (replace c ++ r) = append_char c (scanstring r).
Proof.
  intros V P. unfold replace.
  destruct (c =? 92) eqn:E1.
  { apply N.eqb_eq in E1; subst. reflexivity. }
  destruct (c =? 34) eqn:E2.
  { apply N.eqb_eq in E2; subst. reflexivity. }
  apply N.eqb_neq in E1, E2.
  destruct ((32 <=? c) && (c <=? 126)) eqn:E3.
  { apply andb_true_iff in E3 as [L _]. apply N.leb_le in L.
    now apply scanstring_literal. }
  destruct (c =? 8) eqn:E4. { apply N.eqb_eq in E4; subst. reflexivity. }
  destruct (c =? 12) eqn:E5. { apply N.eqb_eq in E5; subst. reflexivity. }
  destruct (c =? 10) eqn:E6. { apply N.eqb_eq in E6; subst. reflexivity. }
  destruct (c =? 13) eqn:E7. { apply N.eqb_eq in E7; subst. reflexivity. }
  destruct (c =? 9) eqn:E8. { apply N.eqb_eq in E8; subst. reflexivity. }
  destruct (c <? 0x10000) eqn:E9.
  { apply N.ltb_lt in E9.
    destruct (decode_u_escape c r E9) as (a & b & c' & d & -> & D).
    now apply scanstring_u_single. }
  apply N.ltb_ge in E9.
  set (n := c - 0x10000).
  assert (Hn : n < 1048576) by (unfold n; lia).
  cbv zeta. rewrite !land_3ff, N.shiftr_div_pow2. change (2 ^ 10) with 1024.
  assert (Q : n / 1024 < 1024) by lia.
  rewrite (N.mod_small (n / 1024) 1024) by exact Q.
  rewrite lor_d800 by exact Q.
  rewrite lor_dc00 by (apply N.mod_lt; discriminate).
  rewrite <- app_assoc.
  destruct (decode_u_escape (0xd800 + n / 1024) (u_escape (0xdc00 + n mod 1024) ++ r))
    as (a & b & c' & d & -> & D); [lia|].
  destruct (decode_u_escape (0xdc00 + n mod 1024) r)
    as (a2 & b2 & c2 & d2 & -> & D2); [lia|].
  rewrite (scanstring_u_pair a b c' d (0xd800 + n / 1024) a2 b2 c2 d2
             (0xdc00 + n mod 1024) r D); [ | | exact D2 | ].
  - f_equal. rewrite N.shiftl_mul_pow2. change (2 ^ 10) with 1024.
    replace (0xd800 + n / 1024 - 0xd800) with (n / 1024) by lia.
    replace (0xdc00 + n mod 1024 - 0xdc00) with (n mod 1024) by lia.
    change 1024 with (2 ^ 10). rewrite lor_pow2 by (apply N.mod_lt; discriminate).
    change (2 ^ 10) with 1024. unfold n. lia.
  - unfold Str.is_high_surrogate. apply andb_true_iff. split; apply N.leb_le; lia.
  - unfold Str.is_low_surrogate. apply andb_true_iff. split; apply N.leb_le; lia.
Qed.

Lemma no_low_escape_quote rest : no_low_escape (34 :: rest).
Proof. destruct rest; simpl; [exact I | discriminate]. Qed.

Lemma no_low_escape_replace d r :
  d < 0x110000 -> Str.is_low_surrogate d = false -> no_low_escape (replace d ++ r).
Proof.
  intros V L. unfold replace.
  destruct (d =? 92) eqn:E1. { simpl. discriminate. }
  destruct (d =? 34) eqn:E2. { simpl. discriminate. }
  destruct ((32 <=? d) && (d <=? 126)) eqn:E3.
  { destruct r; simpl; [exact I|]. rewrite E1. discriminate. }
  destruct (d =? 8). { simpl. discriminate. }
  destruct (d =? 12). { simpl. discriminate. }
  destruct (d =? 10). { simpl. discriminate. }
  destruct (d =? 13). { simpl. discriminate. }
  destruct (d =? 9). { simpl. discriminate. }
  destruct (d <? 0x10000) eqn:E9.
  { apply N.ltb_lt in E9.
    destruct (decode_u_escape d r E9) as (a & b & c' & d' & -> & D).
    intros _. now exists a, b, c', d', r, d. }
  apply N.ltb_ge in E9. cbv zeta.
  set (n := d - 0x10000).
  assert (Q : N.land (N.shiftr n 10) 0x3ff < 1024)
    by (rewrite land_3ff; apply N.mod_lt; discriminate).
  rewrite lor_d800 by exact Q. rewrite <- app_assoc.
  destruct (decode_u_escape (0xd800 + N.land (N.shiftr n 10) 0x3ff)
              (u_escape (N.lor 0xdc00 (N.land n 0x3ff)) ++ r))
    as (a & b & c' & d' & -> & D); [lia|].
  intros _. eexists a, b, c', d', _, _. split; [reflexivity|]. split; [exact D|].
  unfold Str.is_low_surrogate. apply andb_false_iff. left. apply N.leb_gt. lia.
Qed.

Lemma surrogate_pair_cons c d s :
  Str.has_surrogate_pair (c :: d :: s) = false ->
  (Str.is_high_surrogate c = true -> Str.is_low_surrogate d = false)
  /\ Str.has_surrogate_pair (d :: s) = false.
Proof.
  cbn [Str.has_surrogate_pair]. intros H. apply orb_false_iff in H as [H1 H2].
  split; [|exact H2]. intros Hc. rewrite Hc in H1. exact H1.
Qed.

Theorem scanstring_escape s rest :
  Str.valid s -> Str.has_surrogate_pair s = false ->
  scanstring (escape s ++ 34 :: rest) = Scanned s rest.
Proof.
  induction s as [|c s IH]; intros V P.
  - reflexivity.
  - inversion V as [|? ? Vc Vs]; subst.
    unfold escape. cbn [flat_map]. fold (escape s). rewrite <- app_assoc.
    rewrite replace_spec; [ | exact Vc | ].
    + rewrite IH; [reflexivity | exact Vs | ].
      destruct s; [reflexivity|]. now apply surrogate_pair_cons in P.
    + intros Hc. destruct s as [|d s].
      * apply no_low_escape_quote.
      * apply surrogate_pair_cons in P as [P _].
        inversion Vs; subst. unfold escape. cbn [flat_map]. rewrite <- app_assoc.
        apply no_low_escape_replace; auto.
Qed.

Lemma scan_once_string f r : scan_once (S f) (34 :: r) = lift_str (scanstring r).
Proof. reflexivity. Qed.

Lemma scan_once_object f r r' :
  skip_ws r = 34 :: r' -> scan_once (S f) (123 :: r) = object_loop f r' [].
Proof. intros H. cbn [scan_once]. change (123 =? 34) with false.
  change (123 =? 123) with true. cbv iota. rewrite H. reflexivity. Qed.

Lemma object_loop_more f s pairs key rest rest1 value rest2 rest3 rest4 :
  scanstring s = Scanned key rest ->
  skip_ws rest = 58 :: rest1 ->
  scan_once f (skip_ws rest1) = Scanned value rest2 ->
  skip_ws rest2 = 44 :: rest3 ->
  skip_ws rest3 = 34 :: rest4 ->
  object_loop (S f) s pairs = object_loop f rest4 (pairs ++ [(key, value)]).
Proof.
  intros H1 H2 H3 H4 H5. cbn [object_loop]. rewrite H1, H2.
  change (58 =? 58) with true. cbv iota. rewrite H3. cbv zeta. rewrite H4.
  change (44 =? 125) with false. change (44 =? 44) with true. cbv iota.
  rewrite H5. reflexivity.
Qed.

Lemma object_loop_last f s pairs key rest rest1 value rest2 rest3 :
  scanstring s = Scanned key rest ->
  skip_ws rest = 58 :: rest1 ->
  scan_once f (skip_ws rest1) = Scanned value rest2 ->
  skip_ws rest2 = 125 :: rest3 ->
  object_loop (S f) s pairs
  = Scanned (PyDict (Dict.of_pairs (pairs ++ [(key, value)]))) rest3.
Proof.
  intros H1 H2 H3 H4. cbn [object_loop]. rewrite H1, H2.
  change (58 =? 58) with true. cbv iota. rewrite H3. cbv zeta. rewrite H4.
  reflexivity.
Qed.

Lemma dumps_False_two k1 v1 k2 v2 :
  dumps py_False [(k1, v1); (k2, v2)]
  = 123 :: 10 :: 34 :: escape k1 ++ 34 :: 58 :: 32 :: 34 :: escape v1 ++ 34 ::
      44 :: 10 :: 34 :: escape k2 ++ 34 :: 58 :: 32 :: 34 :: escape v2 ++ 34 ::
      [10; 125].
Proof.
  unfold dumps, iterencode_dict, encode_items, encode_basestring_ascii, key_separator.
  cbn [indent_unit py_False item_separator str_mul repeat app].
  repeat (rewrite <- ?app_assoc; cbn [app]). reflexivity.
Qed.

Lemma scan_dumps_False_two f k1 v1 k2 v2 :
  json_safe k1 -> json_safe v1 -> json_safe k2 -> json_safe v2 ->
  scan_once (S (S (S (S f)))) (dumps py_False [(k1, v1); (k2, v2)])
  = Scanned (PyDict (Dict.of_pairs [(k1, PyStr v1); (k2, PyStr v2)])) [].
Proof.
  intros [A1 A2] [B1 B2] [C1 C2] [D1 D2]. rewrite dumps_False_two.
  erewrite scan_once_object by reflexivity.
  assert (V : forall g v rest, json_safe v ->
             scan_once (S g) (skip_ws (32 :: 34 :: escape v ++ 34 :: rest))
             = Scanned (PyStr v) rest).
  { intros g v rest [X1 X2]. cbn [skip_ws is_ws N.eqb Pos.eqb orb].
    rewrite scan_once_string, scanstring_escape by assumption. reflexivity. }
  erewrite object_loop_more;
    [ | now apply scanstring_escape | reflexivity | apply V; now split
      | reflexivity | reflexivity ].
  erewrite object_loop_last;
    [ reflexivity | now apply scanstring_escape | reflexivity | apply V; now split
      | reflexivity ].
Qed.

Lemma loads_dumps_False_two k1 v1 k2 v2 :
  json_safe k1 -> json_safe v1 -> json_safe k2 -> json_safe v2 ->
  loads (dumps py_False [(k1, v1); (k2, v2)])
  = Loaded (PyDict (Dict.of_pairs [(k1, PyStr v1); (k2, PyStr v2)])).
Proof.
  intros H1 H2 H3 H4.
  pose proof (fun f => scan_dumps_False_two f k1 v1 k2 v2 H1 H2 H3 H4) as Sc.
  remember (dumps py_False [(k1, v1); (k2, v2)]) as text eqn:T.
  assert (Hd : exists r, text = 123 :: r).
  { rewrite T, dumps_False_two. eexists; reflexivity. }
  destruct Hd as [r ->].
  unfold loads. change (123 =? 0xfeff) with false. cbv iota.
  unfold decode. cbn [skip_ws is_ws N.eqb Pos.eqb orb].
  remember (List.length (123 :: r)) as len eqn:L. cbn [List.length] in L.
  destruct len as [|len]; [discriminate|].
  replace (2 * S len + 2)%nat with (S (S (S (S (2 * len)%nat)))) by lia.
  rewrite Sc. reflexivity.
Qed.

Local Abbreviation len := (@List.length N).

Lemma skip_ws_length s : (len (skip_ws s) <= len s)%nat.
Proof.
  induction s as [|c s IH]; cbn [skip_ws]; [lia|].
  destruct (is_ws c); cbn [List.length] in *; lia.
Qed.

Lemma append_char_scanned c R x rest :
  append_char c R = Scanned x rest -> exists x', R = Scanned x' rest.
Proof. destruct R; simpl; intros H; inversion H; eauto. Qed.

Lemma append_char_exhausted c R : append_char c R = Exhausted -> R = Exhausted.
Proof. destruct R; simpl; intros H; inversion H; eauto. Qed.

Ltac break_match_hyp H :=
  repeat match type of H with
         | context [match ?x with _ => _ end] => destruct x eqn:?; try discriminate H
         end;
  repeat match goal with
         | E : context [match ?x with _ => _ end] |- _ => destruct x eqn:?; try discriminate E
         end.

Lemma scanstring_facts n : forall s, (len s <= n)%nat ->
  scanstring s <> Exhausted
  /\ forall x rest, scanstring s = Scanned x rest -> (len rest < len s)%nat.
Proof.
  induction n as [|n IH]; intros s Hn.
  - destruct s; [|cbn [List.length] in Hn; lia]. split; [discriminate|]. discriminate.
  - assert (IH1 : forall r, (len r <= n)%nat -> scanstring r <> Exhausted)
      by (intros r Hr; apply (IH r Hr)).
    assert (IH2 : forall r x rest, (len r <= n)%nat -> scanstring r = Scanned x rest ->
                                   (len rest < len r)%nat)
      by (intros r x rest Hr; apply (IH r Hr)).
    clear IH. split.
    + intros H. destruct s as [|c r]; [discriminate|].
      cbn [scanstring] in H. break_match_hyp H;
        apply append_char_exhausted in H; revert H; apply IH1;
        subst; cbn [List.length] in *; lia.
    + intros x rest H. destruct s as [|c r]; [discriminate|].
      cbn [scanstring] in H. break_match_hyp H;
        try (injection H as <- <-; subst; cbn [List.length]; lia);
        apply append_char_scanned in H as [x' H]; apply IH2 in H;
        subst; cbn [List.length] in *; lia.
Qed.

Lemma scanstring_not_exhausted s : scanstring s <> Exhausted.
Proof. apply (scanstring_facts (len s) s). lia. Qed.

Lemma scanstring_length s x rest :
  scanstring s = Scanned x rest -> (len rest < len s)%nat.
Proof. apply (scanstring_facts (len s) s). lia. Qed.

Lemma starts_with_length p s rest :
  starts_with p s = Some rest -> (len rest + len p = len s)%nat.
Proof.
  revert s; induction p as [|x p IH]; intros [|y s] H; cbn [starts_with] in H;
    try discriminate; try (injection H as <-; cbn [List.length]; lia).
  destruct (x =? y); [|discriminate]. apply IH in H. cbn [List.length]. lia.
Qed.

Lemma span_digits_length s ds rest :
  span_digits s = (ds, rest) -> (len rest <= len s)%nat.
Proof.
  revert ds rest; induction s as [|c s IH]; intros ds rest H; cbn [span_digits] in H.
  - injection H as <- <-. lia.
  - destruct (is_digit c).
    + destruct (span_digits s) as [ds' rest'] eqn:E. injection H as <- <-.
      specialize (IH _ _ eq_refl). cbn [List.length]. lia.
    + injection H as <- <-. lia.
Qed.

Lemma match_integer_length s i rest :
  match_integer s = Some (i, rest) -> (len rest < len s)%nat.
Proof.
  unfold match_integer. intros H. break_match_hyp H;
  repeat match goal with
         | E : span_digits _ = _ |- _ => apply span_digits_length in E
         | E : (_, _) = (_, _) |- _ => inversion E; subst; clear E
         | E : Some _ = Some _ |- _ => inversion E; subst; clear E
         end; subst; cbn [List.length] in *; lia.
Qed.

Lemma match_frac_length s f rest :
  match_frac s = (f, rest) -> (len rest <= len s)%nat.
Proof.
  unfold match_frac. intros H. break_match_hyp H;
  repeat match goal with
         | E : span_digits _ = _ |- _ => apply span_digits_length in E
         | E : (_, _) = (_, _) |- _ => inversion E; subst; clear E
         end; subst; cbn [List.length] in *; lia.
Qed.

Lemma match_exp_length s f rest :
  match_exp s = (f, rest) -> (len rest <= len s)%nat.
Proof.
  unfold match_exp. intros H. break_match_hyp H;
  repeat match goal with
         | E : span_digits _ = _ |- _ => apply span_digits_length in E
         | E : (_, _) = (_, _) |- _ => inversion E; subst; clear E
         end; subst; cbn [List.length] in *; lia.
Qed.

Lemma scan_number_length s v rest :
  scan_number s = Some (v, rest) -> (len rest < len s)%nat.
Proof.
  unfold scan_number. intros H.
  destruct (match_integer s) as [[i s1]|] eqn:E1; [|discriminate].
  destruct (match_frac s1) as [f s2] eqn:E2. destruct (match_exp s2) as [e s3] eqn:E3.
  apply match_integer_length in E1. apply match_frac_length in E2.
  apply match_exp_length in E3.
  destruct f, e; injection H as <- <-; lia.
Qed.

Lemma scan_atom_not_exhausted s : scan_atom s <> Exhausted.
Proof.
  unfold scan_atom. intros H. break_match_hyp H.
Qed.

Lemma scan_atom_length s v rest :
  scan_atom s = Scanned v rest -> (len rest < len s)%nat.
Proof.
  unfold scan_atom. intros H. break_match_hyp H; injection H as <- <-;
  repeat match goal with
         | E : starts_with _ _ = Some _ |- _ => apply starts_with_length in E
         | E : scan_number _ = Some _ |- _ => apply scan_number_length in E
         end; cbn [List.length py Str.lit map list_ascii_of_string] in *; lia.
Qed.

Lemma skip_ws_cons s c r : skip_ws s = c :: r -> (len r < len s)%nat.
Proof. intros H. pose proof (skip_ws_length s) as L. rewrite H in L.
  cbn [List.length] in L. lia. Qed.

Lemma lift_str_scanned R v rest :
  lift_str R = Scanned v rest -> exists x, R = Scanned x rest.
Proof. destruct R; simpl; intros H; inversion H; eauto. Qed.

Ltac length_facts :=
  repeat match goal with
         | E : skip_ws _ = _ :: _ |- _ => apply skip_ws_cons in E
         | E : skip_ws _ = [] |- _ => clear E
         | E : scanstring _ = Scanned _ _ |- _ => apply scanstring_length in E
         | E : scan_atom _ = Scanned _ _ |- _ => apply scan_atom_length in E
         | E : lift_str _ = Scanned _ _ |- _ => apply lift_str_scanned in E as [? E]
         | E : Scanned _ _ = Scanned _ _ |- _ => inversion E; subst; clear E
         end.

Lemma scan_lengths fuel :
  (forall s v rest, scan_once fuel s = Scanned v rest -> (len rest < len s)%nat)
  /\ (forall s pairs v rest, object_loop fuel s pairs = Scanned v rest ->
        (len rest < len s)%nat)
  /\ (forall s values v rest, array_loop fuel s values = Scanned v rest ->
        (len rest < S (len s))%nat).
Proof.
  induction fuel as [|fuel (IHs & IHo & IHa)].
  - repeat split; intros; discriminate.
  - repeat split.
    + intros s v rest H. destruct s as [|c r]; [discriminate|].
      cbn [scan_once] in H.
      destruct (c =? 34); [|destruct (c =? 123); [|destruct (c =? 91)]].
      * length_facts. cbn [List.length]. lia.
      * destruct (skip_ws r) as [|c' r'] eqn:E; [discriminate|].
        destruct (c' =? 125); [|destruct (c' =? 34); [|discriminate]].
        -- length_facts. cbn [List.length]. lia.
        -- apply IHo in H. length_facts. cbn [List.length]. lia.
      * destruct (skip_ws r) as [|c' r'] eqn:E.
        -- apply IHa in H. cbn [List.length] in *. lia.
        -- destruct (c' =? 93).
           ++ length_facts. cbn [List.length]. lia.
           ++ apply IHa in H. pose proof (skip_ws_length r) as L. rewrite E in L.
              cbn [List.length] in *. lia.
      * length_facts. exact H.
    + intros s pairs v rest H. cbn [object_loop] in H.
      destruct (scanstring s) as [key rest0| |] eqn:E1; try discriminate.
      destruct (skip_ws rest0) as [|colon rest1] eqn:E2; [discriminate|].
      destruct (colon =? 58); [|discriminate].
      destruct (scan_once fuel (skip_ws rest1)) as [value rest2| |] eqn:E3; try discriminate.
      apply IHs in E3. pose proof (skip_ws_length rest1) as L1.
      cbv zeta in H.
      destruct (skip_ws rest2) as [|nextchar rest3] eqn:E4; [discriminate|].
      destruct (nextchar =? 125).
      * length_facts. lia.
      * destruct (nextchar =? 44); [|discriminate].
        destruct (skip_ws rest3) as [|q rest4] eqn:E5; [discriminate|].
        destruct (q =? 34); [|discriminate].
        apply IHo in H. length_facts. lia.
    + intros s values v rest H. cbn [array_loop] in H.
      destruct (scan_once fuel s) as [value rest0| |] eqn:E1; try discriminate.
      apply IHs in E1. cbv zeta in H.
      destruct (skip_ws rest0) as [|nextchar rest1] eqn:E2; [discriminate|].
      destruct (nextchar =? 93).
      * length_facts. lia.
      * destruct (nextchar =? 44); [|discriminate].
        apply IHa in H. pose proof (skip_ws_length rest1) as L1. length_facts. lia.
Qed.

Lemma scan_total fuel :
  (forall s, (2 * len s + 1 <= fuel)%nat -> scan_once fuel s <> Exhausted)
  /\ (forall s pairs, (2 * len s + 2 <= fuel)%nat -> object_loop fuel s pairs <> Exhausted)
  /\ (forall s values, (2 * len s + 2 <= fuel)%nat -> array_loop fuel s values <> Exhausted).
Proof.
  induction fuel as [|fuel (IHs & IHo & IHa)].
  - repeat split; intros; lia.
  - repeat split.
    + intros s F H. destruct s as [|c r]; [discriminate|].
      cbn [scan_once] in H. cbn [List.length] in F.
      destruct (c =? 34); [|destruct (c =? 123); [|destruct (c =? 91)]].
      * destruct (scanstring r) eqn:E; try discriminate.
        now apply scanstring_not_exhausted in E.
      * destruct (skip_ws r) as [|c' r'] eqn:E; [discriminate|].
        destruct (c' =? 125); [discriminate|]. destruct (c' =? 34); [|discriminate].
        revert H. apply IHo. length_facts. lia.
      * pose proof (skip_ws_length r) as L.
        destruct (skip_ws r) as [|c' r'] eqn:E.
        -- revert H. apply IHa. cbn [List.length]. lia.
        -- destruct (c' =? 93); [discriminate|].
           revert H. apply IHa. cbn [List.length] in *. lia.
      * now apply scan_atom_not_exhausted in H.
    + intros s pairs F H. cbn [object_loop] in H.
      destruct (scanstring s) as [key rest0| |] eqn:E1; try discriminate.
      2: now apply scanstring_not_exhausted in E1.
      destruct (skip_ws rest0) as [|colon rest1] eqn:E2; [discriminate|].
      destruct (colon =? 58); [|discriminate].
      pose proof (skip_ws_length rest1) as L1.
      destruct (scan_once fuel (skip_ws rest1)) as [value rest2| |] eqn:E3; try discriminate.
      2: { revert E3. apply IHs. length_facts. lia. }
      apply (proj1 (scan_lengths fuel)) in E3. cbv zeta in H.
      destruct (skip_ws rest2) as [|nextchar rest3] eqn:E4; [discriminate|].
      destruct (nextchar =? 125); [discriminate|].
      destruct (nextchar =? 44); [|discriminate].
      destruct (skip_ws rest3) as [|q rest4] eqn:E5; [discriminate|].
      destruct (q =? 34); [|discriminate].
      revert H. apply IHo. length_facts. lia.
    + intros s values F H. cbn [array_loop] in H.
      destruct (scan_once fuel s) as [value rest0| |] eqn:E1; try discriminate.
      2: { revert E1. apply IHs. lia. }
      apply (proj1 (scan_lengths fuel)) in E1. cbv zeta in H.
      destruct (skip_ws rest0) as [|nextchar rest1] eqn:E2; [discriminate|].
      destruct (nextchar =? 93); [discriminate|].
      destruct (nextchar =? 44); [|discriminate].
      pose proof (skip_ws_length rest1) as L1.
      revert H. apply IHa. length_facts. lia.
Qed.

Theorem loads_total s : loads s <> Unfinished.
Proof.
  assert (D : decode s <> Unfinished).
  { unfold decode. pose proof (skip_ws_length s) as L.
    destruct (scan_once _ _) eqn:E.
    - destruct (skip_ws rest); discriminate.
    - discriminate.
    - exfalso. revert E. apply (proj1 (scan_total _)). lia. }
  unfold loads. destruct s as [|c r]; [exact D|].
  destruct (c =? 0xfeff); [discriminate | exact D].
Qed.

Lemma json_safe_cons c s :
  c < 0xd800 -> json_safe s -> json_safe (c :: s).
Proof.
  intros Hc [V P]. split.
  - constructor; [lia | exact V].
  - destruct s as [|d s]; [reflexivity|].
    change (Str.has_surrogate_pair (c :: d :: s))
      with ((Str.is_high_surrogate c && Str.is_low_surrogate d)
            || Str.has_surrogate_pair (d :: s)).
    rewrite P. unfold Str.is_high_surrogate.
    replace (0xd800 <=? c) with false by (symmetry; apply N.leb_gt; exact Hc).
    reflexivity.
Qed.

Lemma json_safe_nil : json_safe [].
Proof. split; [constructor | reflexivity]. Qed.

Lemma json_safeb_safe s : json_safeb s = true -> json_safe s.
Proof.
  unfold json_safeb, json_safe, Str.valid. intros H.
  apply andb_true_iff in H as [V P]. split.
  - rewrite forallb_forall in V. apply Forall_forall. intros c Hc.
    apply N.ltb_lt. now apply V.
  - now apply negb_true_iff in P.
Qed.


Lemma json_safe_error_keys :
  json_safe (py "error") /\ json_safe (py "error_metadata").
Proof.
  split.
  - let x := eval vm_compute in (py "error") in change (py "error") with x.
    repeat (apply json_safe_cons; [reflexivity|]). apply json_safe_nil.
  - let x := eval vm_compute in (py "error_metadata") in
    change (py "error_metadata") with x.
    repeat (apply json_safe_cons; [reflexivity|]). apply json_safe_nil.
Qed.

(** The text [after_return] stores under ["custom"] reads back as the error
    payload it was made from, as long as its two strings are [json_safe]. *)
Lemma loads_json_dumps_indent_False payload :
  json_safe (error payload) -> json_safe (error_metadata payload) ->
  loads (json_dumps_indent_False payload) = Loaded (envelope payload).
Proof.
  intros H1 H2. destruct json_safe_error_keys as [K1 K2].
  unfold json_dumps_indent_False, ErrorResponse_items.
  rewrite loads_dumps_False_two by assumption. reflexivity.
Qed.

(** ** Facts about the serialized payload *)

Lemma hexdigit_printable d : d < 16 -> 32 <= hexdigit d <= 126.
Proof.
  intros H. unfold hexdigit. destruct (d <? 10) eqn:E.
  - apply N.ltb_lt in E. lia.
  - apply N.ltb_ge in E. lia.
Qed.

Lemma u_escape_printable n : Forall (fun x => 32 <= x <= 126) (u_escape n).
Proof.
  unfold u_escape.
  repeat (constructor; [first [lia | apply hexdigit_printable, nibble_lt]|]).
  constructor.
Qed.

Lemma replace_printable c : Forall (fun x => 32 <= x <= 126) (replace c).
Proof.
  unfold replace.
  destruct (c =? 92). { repeat (constructor; [lia|]). constructor. }
  destruct (c =? 34). { repeat (constructor; [lia|]). constructor. }
  destruct ((32 <=? c) && (c <=? 126)) eqn:E.
  { apply andb_true_iff in E as [L U]. apply N.leb_le in L, U.
    constructor; [lia | constructor]. }
  destruct (c =? 8). { repeat (constructor; [lia|]). constructor. }
  destruct (c =? 12). { repeat (constructor; [lia|]). constructor. }
  destruct (c =? 10). { repeat (constructor; [lia|]). constructor. }
  destruct (c =? 13). { repeat (constructor; [lia|]). constructor. }
  destruct (c =? 9). { repeat (constructor; [lia|]). constructor. }
  destruct (c <? 0x10000). { apply u_escape_printable. }
  cbv zeta. apply Forall_app. split; apply u_escape_printable.
Qed.

(** The string encoder emits printable ASCII only: a line break inside a
    string is written as a backslash and [n]. *)
Lemma encode_basestring_ascii_printable s :
  Forall (fun x => 32 <= x <= 126) (encode_basestring_ascii s).
Proof.
  unfold encode_basestring_ascii. apply Forall_app. split.
  - constructor; [lia | constructor].
  - apply Forall_app. split; [|constructor; [lia | constructor]].
    unfold escape. induction s as [|c s IH]; cbn [flat_map]; [constructor|].
    apply Forall_app. split; [apply replace_printable | exact IH].
Qed.

(** What [json.dumps(payload)] would give without the [indent] argument: one
    line. *)
Lemma compact_dumps_one_line payload :
  ~ In 10 (dumps IndentNone (ErrorResponse_items payload)).
Proof.
  assert (P : Forall (fun x => 32 <= x <= 126)
                (dumps IndentNone (ErrorResponse_items payload))).
  { unfold dumps, iterencode_dict, ErrorResponse_items, encode_items, key_separator.
    cbn [indent_unit item_separator].
    repeat first
      [ apply encode_basestring_ascii_printable
      | apply Forall_app; split
      | constructor; [lia|]
      | constructor ]. }
  intros H. rewrite Forall_forall in P. specialize (P _ H). lia.
Qed.

(** With [indent=False] the text has a line break after the opening brace,
    after the comma and before the closing brace. *)
Lemma json_dumps_indent_False_layout payload :
  json_dumps_indent_False payload
  = [123; 10]
      ++ encode_basestring_ascii (py "error") ++ [58; 32]
      ++ encode_basestring_ascii (error payload)
      ++ [44; 10]
      ++ encode_basestring_ascii (py "error_metadata") ++ [58; 32]
      ++ encode_basestring_ascii (error_metadata payload)
      ++ [10; 125].
Proof.
  unfold json_dumps_indent_False, ErrorResponse_items. rewrite dumps_False_two.
  unfold encode_basestring_ascii.
  repeat (rewrite <- ?app_assoc; cbn [app]). reflexivity.
Qed.

Lemma json_dumps_indent_False_multiline payload :
  In 10 (json_dumps_indent_False payload).
Proof. rewrite json_dumps_indent_False_layout. right. left. reflexivity. Qed.

(** * The worker *)

Section WorkerFacts.

Context {pkg : Package}.

Set Default Proof Using "Type".

(** ** Facts about [ErrorHandlingTask.after_return] *)

Lemma raw_celery_response_loaded b task_id text info :
  get b (get_key_for_task b task_id) = Some text ->
  loads text = Loaded info ->
  raw_celery_response b task_id
  = (Return info, [BackendGet (get_key_for_task b task_id)]).
Proof.
  intros H1 H2. unfold raw_celery_response, backend_get, json_loads, bind, emit, ret.
  rewrite H1, H2. reflexivity.
Qed.

Lemma raw_celery_response_absent b task_id :
  get b (get_key_for_task b task_id) = None ->
  raw_celery_response b task_id
  = (Raise TypeError, [BackendGet (get_key_for_task b task_id)]).
Proof.
  intros H. unfold raw_celery_response, backend_get, json_loads, bind, emit, ret.
  rewrite H. reflexivity.
Qed.

Lemma raw_celery_response_malformed b task_id text :
  get b (get_key_for_task b task_id) = Some text ->
  loads text = InvalidDocument ->
  raw_celery_response b task_id
  = (Raise JSONDecodeError, [BackendGet (get_key_for_task b task_id)]).
Proof.
  intros H1 H2. unfold raw_celery_response, backend_get, json_loads, bind, emit, ret.
  rewrite H1, H2. reflexivity.
Qed.

Lemma getitem_field obj key v :
  field obj key = Some v -> getitem obj key = (Return v, []).
Proof.
  destruct obj; simpl; try discriminate. intros ->. reflexivity.
Qed.

Lemma getitem_missing obj key :
  field obj key = None ->
  exists r, getitem obj key = (Raise r, []) /\ is_Exception r = true.
Proof.
  destruct obj; simpl; intros H; try (exists TypeError; split; reflexivity).
  rewrite H. exists (KeyError key). split; reflexivity.
Qed.

Lemma getitem_subscript_error obj key :
  field obj key = None ->
  getitem obj key = (Raise (subscript_error obj key), []).
Proof.
  destruct obj; simpl; intros H; try reflexivity. rewrite H. reflexivity.
Qed.

Lemma after_return_enters self e task_id :
  exc_is_Exception e = true ->
  after_return self FAILURE (Exc e) task_id
  = (logger_warning (Setting_custom_error_response task_id) ;;
     info <- raw_celery_response (backend self) task_id ;;
     result <- getitem info (py "result") ;;
     exc_type <- getitem result (py "exc_type") ;;
     exc_message <- getitem result (py "exc_message") ;;
     update_state self FAILURE
       [(py "exc_type", exc_type);
        (py "exc_message", exc_message);
        (py "custom",
         PyStr (json_dumps_indent_False (error_response (py "Internal failure") e)))]).
Proof.
  intros H. unfold after_return, as_Exception. rewrite H. reflexivity.
Qed.

(** With a well-formed record in the backend, [after_return] warns, reads the
    record once and publishes once. *)
Lemma after_return_publishes self e task_id text info result t m :
  exc_is_Exception e = true ->
  get (backend self) (get_key_for_task (backend self) task_id) = Some text ->
  loads text = Loaded info ->
  field info (py "result") = Some result ->
  field result (py "exc_type") = Some t ->
  field result (py "exc_message") = Some m ->
  after_return self FAILURE (Exc e) task_id
  = (Return tt,
     [Log WARNING (Setting_custom_error_response task_id) None;
      BackendGet (get_key_for_task (backend self) task_id);
      UpdateState (request_id self) FAILURE
        [(py "exc_type", t);
         (py "exc_message", m);
         (py "custom",
          PyStr (json_dumps_indent_False (error_response (py "Internal failure") e)))]]).
Proof.
  intros He Hg Hl Hr Ht Hm. rewrite after_return_enters by exact He.
  unfold bind at 2. rewrite (raw_celery_response_loaded _ _ _ _ Hg Hl).
  unfold bind at 2. rewrite (getitem_field _ _ _ Hr).
  unfold bind at 2. rewrite (getitem_field _ _ _ Ht).
  unfold bind at 2. rewrite (getitem_field _ _ _ Hm).
  reflexivity.
Qed.


(** C3.  The FAILURE state [after_return] publishes carries the [exc_type]
    and [exc_message] found in the backend's record of the task, and adds
    ["custom"]: the published mapping has exactly these three keys. *)
Theorem failure_state_preserves_exc_fields self e task_id text info result t m :
  exc_is_Exception e = true ->
  get (backend self) (get_key_for_task (backend self) task_id) = Some text ->
  loads text = Loaded info ->
  field info (py "result") = Some result ->
  field result (py "exc_type") = Some t ->
  field result (py "exc_message") = Some m ->
  exists custom,
    after_return self FAILURE (Exc e) task_id
    = (Return tt,
       [Log WARNING (Setting_custom_error_response task_id) None;
        BackendGet (get_key_for_task (backend self) task_id);
        UpdateState (request_id self) FAILURE
          [(py "exc_type", t); (py "exc_message", m); (py "custom", PyStr custom)]]).
Proof.
  intros He Hg Hl Hr Ht Hm. eexists.
  now apply (after_return_publishes self e task_id text info result t m).
Qed.

(** C4.  When the status is not FAILURE, or the terminal value is not an
    instance of [Exception], [after_return] does nothing: it returns with an
    empty trace, so the backend is neither read nor written. *)
Theorem after_return_noop self status retval task_id :
  status <> FAILURE \/ as_Exception retval = None ->
  after_return self status retval task_id = (Return tt, []).
Proof.
  intros [H | H]; unfold after_return.
  - destruct (Str.eqb status FAILURE) eqn:E; [|reflexivity].
    apply Str_eqb_eq in E. contradiction.
  - rewrite H. destruct (Str.eqb status FAILURE); reflexivity.
Qed.

(** C9.  When the backend has no record for the task, or the record is not
    valid JSON, or it has no ["result"] mapping, or that mapping lacks
    ["exc_type"] or ["exc_message"], the error of the lookup itself leaves
    [after_return], uncaught and after a single read: the [TypeError] of
    [json.loads(None)], the [JSONDecodeError] of the decoder, or the
    [KeyError] (from a mapping) or [TypeError] (from anything else) of the
    failed subscription.  The trace ends with the read: no state is
    published. *)
Theorem backend_errors_propagate self e task_id :
  exc_is_Exception e = true ->
  let record := get (backend self) (get_key_for_task (backend self) task_id) in
  let trace :=
    [Log WARNING (Setting_custom_error_response task_id) None;
     BackendGet (get_key_for_task (backend self) task_id)] in
  (record = None ->
   after_return self FAILURE (Exc e) task_id = (Raise TypeError, trace))
  /\ (forall text,
        record = Some text ->
        loads text = InvalidDocument ->
        after_return self FAILURE (Exc e) task_id = (Raise JSONDecodeError, trace))
  /\ (forall text info,
        record = Some text ->
        loads text = Loaded info ->
        field info (py "result") = None ->
        after_return self FAILURE (Exc e) task_id
        = (Raise (subscript_error info (py "result")), trace))
  /\ (forall text info result,
        record = Some text ->
        loads text = Loaded info ->
        field info (py "result") = Some result ->
        field result (py "exc_type") = None ->
        after_return self FAILURE (Exc e) task_id
        = (Raise (subscript_error result (py "exc_type")), trace))
  /\ (forall text info result t,
        record = Some text ->
        loads text = Loaded info ->
        field info (py "result") = Some result ->
        field result (py "exc_type") = Some t ->
        field result (py "exc_message") = None ->
        after_return self FAILURE (Exc e) task_id
        = (Raise (KeyError (py "exc_message")), trace)).
Proof.
  intros He. cbv zeta. rewrite after_return_enters by exact He.
  repeat split.
  - intros Hg. unfold bind at 2.
    rewrite (raw_celery_response_absent _ _ Hg). reflexivity.
  - intros text Hg Hl. unfold bind at 2.
    rewrite (raw_celery_response_malformed _ _ _ Hg Hl). reflexivity.
  - intros text info Hg Hl Hr. unfold bind at 2.
    rewrite (raw_celery_response_loaded _ _ _ _ Hg Hl).
    unfold bind at 2. rewrite (getitem_subscript_error _ _ Hr). reflexivity.
  - intros text info result Hg Hl Hr Ht. unfold bind at 2.
    rewrite (raw_celery_response_loaded _ _ _ _ Hg Hl).
    unfold bind at 2. rewrite (getitem_field _ _ _ Hr).
    unfold bind at 2. rewrite (getitem_subscript_error _ _ Ht). reflexivity.
  - intros text info result t0 Hg Hl Hr Ht Hm. unfold bind at 2.
    rewrite (raw_celery_response_loaded _ _ _ _ Hg Hl).
    unfold bind at 2. rewrite (getitem_field _ _ _ Hr).
    unfold bind at 2. rewrite (getitem_field _ _ _ Ht).
    unfold bind at 2. rewrite (getitem_subscript_error _ _ Hm).
    destruct result; try discriminate Ht. reflexivity.
Qed.

(** ** Facts about the task functions *)

Lemma exec_func_eval forwarder payload ignored_args ignored_kwargs :
  exec_func forwarder payload ignored_args ignored_kwargs
  = (match forwarder payload with
     | inr v => Return v
     | inl e => Raise (Raised e)
     end,
     argument_warnings ignored_args ignored_kwargs
       ++ ForwarderCall payload
       :: match forwarder payload with
          | inr _ => []
          | inl e =>
              if exc_is_Exception e
              then [Log ERROR Celery_service_failed_to_respond (Some (Raised e))]
              else []
          end).
Proof.
  unfold exec_func, argument_warnings, call_forwarder, try_except_Exception,
    logger_warning, logger_exception, bind, emit, ret, raise.
  destruct (0 <? List.length ignored_args)%nat,
           (0 <? List.length ignored_kwargs)%nat,
           (forwarder payload) as [e | v];
    cbn [is_Exception app]; try destruct (exc_is_Exception e); reflexivity.
Qed.

(** C5 (as amended).  [exec_func] calls the Forwarder on the payload.  A
    value the Forwarder returns is returned unchanged.  An exception it
    raises is raised again, the same object, whatever its class; it is
    logged at ERROR severity when it is an instance of [Exception], and not
    logged otherwise. *)
Theorem exec_func_returns_or_reraises forwarder payload ignored_args ignored_kwargs :
  (forall v,
     forwarder payload = inr v ->
     exec_func forwarder payload ignored_args ignored_kwargs
     = (Return v,
        argument_warnings ignored_args ignored_kwargs ++ [ForwarderCall payload]))
  /\ (forall e,
        forwarder payload = inl e ->
        exec_func forwarder payload ignored_args ignored_kwargs
        = (Raise (Raised e),
           argument_warnings ignored_args ignored_kwargs
             ++ ForwarderCall payload
             :: (if exc_is_Exception e
                 then [Log ERROR Celery_service_failed_to_respond (Some (Raised e))]
                 else []))).
Proof.
  split.
  - intros v H. rewrite exec_func_eval, H. reflexivity.
  - intros e H. rewrite exec_func_eval, H. reflexivity.
Qed.

(** What does not derive from [Exception] passes through [exec_func]
    unlogged. *)
Lemma exec_func_passes_BaseException forwarder payload ignored_args ignored_kwargs e :
  forwarder payload = inl e ->
  exc_is_Exception e = false ->
  exec_func forwarder payload ignored_args ignored_kwargs
  = (Raise (Raised e),
     argument_warnings ignored_args ignored_kwargs ++ [ForwarderCall payload]).
Proof. intros H He. rewrite exec_func_eval, H, He. reflexivity. Qed.

Lemma argument_warnings_are_warnings ignored_args ignored_kwargs :
  Forall is_warning (argument_warnings ignored_args ignored_kwargs).
Proof.
  unfold argument_warnings.
  destruct (0 <? List.length ignored_args)%nat,
           (0 <? List.length ignored_kwargs)%nat;
    repeat (constructor; [eexists; reflexivity|]); constructor.
Qed.

Lemma forwarder_calls_app t1 t2 :
  forwarder_calls (t1 ++ t2) = forwarder_calls t1 ++ forwarder_calls t2.
Proof. apply flat_map_app. Qed.

Lemma forwarder_calls_warnings ignored_args ignored_kwargs :
  forwarder_calls (argument_warnings ignored_args ignored_kwargs) = [].
Proof.
  unfold argument_warnings.
  destruct (0 <? List.length ignored_args)%nat,
           (0 <? List.length ignored_kwargs)%nat; reflexivity.
Qed.

(** C7.  Extra positional and keyword arguments change neither the result
    nor what the Forwarder is called with: the call ends the same way as
    with the payload alone, its trace is the trace of that call preceded by
    warnings, and the Forwarder was called once, on the payload. *)
Theorem argument_tolerance forwarder payload ignored_args ignored_kwargs :
  fst (exec_func forwarder payload ignored_args ignored_kwargs)
  = fst (exec_func forwarder payload [] [])
  /\ snd (exec_func forwarder payload ignored_args ignored_kwargs)
     = argument_warnings ignored_args ignored_kwargs
         ++ snd (exec_func forwarder payload [] [])
  /\ Forall is_warning (argument_warnings ignored_args ignored_kwargs)
  /\ forwarder_calls (snd (exec_func forwarder payload ignored_args ignored_kwargs))
     = [payload].
Proof.
  rewrite !exec_func_eval. cbn [fst snd]. repeat split.
  - apply argument_warnings_are_warnings.
  - rewrite forwarder_calls_app, forwarder_calls_warnings. cbn [app].
    destruct (forwarder payload) as [e | v]; [destruct (exc_is_Exception e)|];
      reflexivity.
Qed.

(** C6.  Both registered names run the same executor: a message for the
    current name and a message for the legacy name with the same arguments
    are both served, with the outcome and effects of [exec_func]. *)
Theorem routing_equivalence forwarder task_visibility queue_name sqs_url
    payload args kwargs :
  let app := create_celery_service forwarder task_visibility queue_name sqs_url in
  run_task app LIRA_CELERY_TASK_NAME payload args kwargs
  = Some (exec_func forwarder payload args kwargs)
  /\ run_task app DEFAULT_CELERY_TASK_NAME payload args kwargs
     = Some (exec_func forwarder payload args kwargs).
Proof.
  assert (R : forall a, Str.eqb a a = true) by (intros a; now apply Str_eqb_eq).
  cbv zeta. unfold create_celery_service, celery_app, app_task, run_task, lookup_task.
  cbn [tasks task_name find app settings]. cbn [find task_name].
  destruct (Str.eqb LIRA_CELERY_TASK_NAME DEFAULT_CELERY_TASK_NAME) eqn:E;
    cbn [tasks settings find task_name app run]; rewrite ?R, ?E;
    cbn [tasks settings find task_name app run]; rewrite ?R; split; reflexivity.
Qed.

(** C8 (as amended).  With [sqs_url] absent or empty the application gets the
    REDIS broker and no transport options; with a non-empty [sqs_url] it gets
    the SQS broker and the predefined queue [{queue_name: {"url": sqs_url}}]. *)
Theorem broker_resolution forwarder task_visibility queue_name :
  (forall sqs_url,
     sqs_url = None \/ sqs_url = Some [] ->
     let app := create_celery_service forwarder task_visibility queue_name sqs_url in
     broker_type (settings app) = BrokerType_value REDIS
     /\ broker_transport_options (settings app) = None)
  /\ (forall c url,
        let sqs_url := Some (c :: url) in
        let app := create_celery_service forwarder task_visibility queue_name sqs_url in
        broker_type (settings app) = BrokerType_value SQS
        /\ broker_transport_options (settings app)
           = Some [(py "predefined_queues", [(queue_name, [(py "url", sqs_url)])])]).
Proof.
  assert (S : forall app t, settings (app_task app t) = settings app).
  { intros app t. unfold app_task. destruct (lookup_task app (task_name t)); reflexivity. }
  split.
  - intros sqs_url [-> | ->]; cbv zeta; unfold create_celery_service;
      rewrite !S; split; reflexivity.
  - intros c url. cbv zeta. unfold create_celery_service. rewrite !S.
    split; reflexivity.
Qed.

(** ** Facts about the entry point *)

Lemma entrypoint_starts_worker args forwarder_config async_config forwader :
  load_named_config (args_config args) (args_set args) = inr forwarder_config ->
  field forwarder_config (py "async") = Some async_config ->
  LoadForwarder_load async_config = inr forwader ->
  entrypoint args
  = start_celery_service
      (create_celery_service forwader VISIBILITY_24H
         (Some (args_queue args)) (args_sqs_url args))
      (args_queue args) (args_num_workers args).
Proof.
  intros H1 H2 H3. unfold entrypoint. rewrite H1. cbn [lift].
  unfold bind at 1. cbn [ret]. rewrite (getitem_field _ _ _ H2).
  unfold bind at 1. rewrite H3. cbn [lift]. unfold bind, ret.
  destruct (start_celery_service _ _ _) as [o tr]. reflexivity.
Qed.

Lemma getitem_trace obj key : snd (getitem obj key) = [].
Proof.
  unfold getitem. destruct obj; try reflexivity.
  destruct (Dict.get items key); reflexivity.
Qed.

Lemma entrypoint_eval args :
  entrypoint args
  = match load_named_config (args_config args) (args_set args) with
    | inl r => (Raise r, [])
    | inr forwarder_config =>
        match fst (getitem forwarder_config (py "async")) with
        | Raise r => (Raise r, [])
        | Return async_config =>
            match LoadForwarder_load async_config with
            | inl r => (Raise r, [])
            | inr forwader =>
                start_celery_service
                  (create_celery_service forwader VISIBILITY_24H
                     (Some (args_queue args)) (args_sqs_url args))
                  (args_queue args) (args_num_workers args)
            end
        end
    end.
Proof.
  unfold entrypoint.
  destruct (load_named_config (args_config args) (args_set args)) as [r | cfg];
    [reflexivity|].
  cbv beta iota delta [lift ret raise bind start_celery_service emit].
  pose proof (getitem_trace cfg (py "async")) as T.
  destruct (getitem cfg (py "async")) as [[a | r] tr]; cbn [snd fst] in *; subst tr;
    [|reflexivity].
  destruct (LoadForwarder_load a) as [r | fw]; reflexivity.
Qed.

(** C10.  Whatever value is given for [--task-visibility], [entrypoint]
    does the same; every worker it starts runs an application created with
    [VISIBILITY_24H]; and when the configuration loads and gives a
    Forwarder, it does create the service with [VISIBILITY_24H] and starts
    the worker on it. *)
Theorem entrypoint_visibility_fixed args v :
  entrypoint (with_task_visibility args v) = entrypoint args
  /\ Forall (fun tv => tv = VISIBILITY_24H)
       (started_visibilities (snd (entrypoint (with_task_visibility args v))))
  /\ (forall forwarder_config async_config forwader,
        load_named_config (args_config args) (args_set args) = inr forwarder_config ->
        field forwarder_config (py "async") = Some async_config ->
        LoadForwarder_load async_config = inr forwader ->
        let app :=
          create_celery_service forwader VISIBILITY_24H
            (Some (args_queue args)) (args_sqs_url args) in
        entrypoint (with_task_visibility args v)
        = (Return tt,
           [WorkerStart (settings app) (map task_name (tasks app))
              {| queues := [args_queue args];
                 concurrency := args_num_workers args;
                 loglevel := py "INFO";
                 optimization := py "fair";
                 pool := py "solo" |}])
        /\ task_visibility (settings app) = VISIBILITY_24H
        /\ started_visibilities (snd (entrypoint (with_task_visibility args v)))
           = [VISIBILITY_24H]).
Proof.
  assert (S : forall app t, settings (app_task app t) = settings app).
  { intros app t. unfold app_task. destruct (lookup_task app (task_name t)); reflexivity. }
  split; [reflexivity|]. split.
  - change (entrypoint (with_task_visibility args v)) with (entrypoint args).
    rewrite entrypoint_eval.
    destruct (load_named_config (args_config args) (args_set args)) as [r | cfg];
      [constructor|].
    destruct (fst (getitem cfg (py "async"))) as [a | r]; [|constructor].
    destruct (LoadForwarder_load a) as [r | fw]; [constructor|].
    unfold start_celery_service, emit, create_celery_service. rewrite !S.
    constructor; [reflexivity | constructor].
  - intros forwarder_config async_config forwader H1 H2 H3. cbv zeta.
    change (entrypoint (with_task_visibility args v)) with (entrypoint args).
    rewrite (entrypoint_starts_worker args forwarder_config async_config forwader)
      by assumption.
    unfold start_celery_service, emit. cbn [snd started_visibilities flat_map app].
    unfold create_celery_service. rewrite !S.
    repeat split.
Qed.

End WorkerFacts.

(** * The scenario, evaluated *)

Lemma scenario_record_loads : loads Scenario.record = Loaded Scenario.info.
Proof. vm_compute. reflexivity. Qed.



(** At that input [after_return] does publish, and this is what the
    published text reads back as. *)
Lemma error_envelope_merged_publication :
  after_return (pkg := Scenario.pkg) (Scenario.task (py "t-5")) FAILURE
    (Exc Scenario.split_emoji) (py "t-5")
  = (Return tt,
     [Log WARNING (Setting_custom_error_response (py "t-5")) None;
      BackendGet (Scenario.key_for (py "t-5"));
      UpdateState (py "t-5") FAILURE
        [(py "exc_type", PyStr (py "ValueError"));
         (py "exc_message", PyList [PyStr [0x1f600]]);
         (py "custom",
          PyStr (json_dumps_indent_False
                   (error_response (pkg := Scenario.pkg) (py "Internal failure")
                      Scenario.split_emoji)))]]).
Proof. vm_compute. reflexivity. Qed.

(** What the published text does read back as at that input. *)
Lemma error_envelope_merged_value :
  loads (json_dumps_indent_False
           (error_response (pkg := Scenario.pkg) (py "Internal failure")
              Scenario.split_emoji))
  = Loaded
      (PyDict
         [(py "error", PyStr [0x1f600]);
          (py "error_metadata",
           PyStr (py "Internal failure" ++ [10]
                    ++ py "Traceback (most recent call last):" ++ [10]
                    ++ py "ValueError: " ++ [0x1f600; 10]))]).
Proof. vm_compute. reflexivity. Qed.

(** C2, at a failing input.  For [ValueError("bad input")] the text stored
    under ["custom"] is [Scenario.custom]: it has a line break after the
    opening brace, after the comma and before the closing brace, where the
    compact form of the same payload has none. *)
Theorem custom_field_is_multiline :
  after_return (pkg := Scenario.pkg) (Scenario.task (py "t-1")) FAILURE
    (Exc Scenario.bad_input) (py "t-1")
  = (Return tt,
     [Log WARNING (Setting_custom_error_response (py "t-1")) None;
      BackendGet (Scenario.key_for (py "t-1"));
      UpdateState (py "t-1") FAILURE
        [(py "exc_type", PyStr (py "ValueError"));
         (py "exc_message", PyList [PyStr (py "bad input")]);
         (py "custom", PyStr Scenario.custom)]])
  /\ count_occ N.eq_dec Scenario.custom 10 = 3%nat
  /\ count_occ N.eq_dec
       (dumps IndentNone
          (ErrorResponse_items
             (error_response (pkg := Scenario.pkg) (py "Internal failure")
                Scenario.bad_input))) 10 = 0%nat.
Proof. repeat split; vm_compute; reflexivity. Qed.

Lemma failure_state_preserves_exc_fields_at_scenario :
  exists custom,
    after_return (pkg := Scenario.pkg) (Scenario.task (py "t-1")) FAILURE
      (Exc Scenario.bad_input) (py "t-1")
    = (Return tt,
       [Log WARNING (Setting_custom_error_response (py "t-1")) None;
        BackendGet (Scenario.key_for (py "t-1"));
        UpdateState (py "t-1") FAILURE
          [(py "exc_type", PyStr (py "ValueError"));
           (py "exc_message", PyList [PyStr (py "bad input")]);
           (py "custom", PyStr custom)]]).
Proof.
  apply (failure_state_preserves_exc_fields (pkg := Scenario.pkg)
           (Scenario.task (py "t-1")) Scenario.bad_input (py "t-1") Scenario.record Scenario.info
           Scenario.result).
  - reflexivity.
  - vm_compute. reflexivity.
  - vm_compute. reflexivity.
  - vm_compute. reflexivity.
  - vm_compute. reflexivity.
  - vm_compute. reflexivity.
Defined.

Lemma after_return_noop_at_success :
  after_return (pkg := Scenario.pkg) (Scenario.task (py "t-1")) (py "SUCCESS")
    (Value (PyDict [(py "result", PyInt 1)])) (py "t-1")
  = (Return tt, []).
Proof.
  apply (after_return_noop (pkg := Scenario.pkg)).
  left. vm_compute. discriminate.
Defined.

Lemma backend_errors_propagate_at_truncated_record :
  after_return (pkg := Scenario.pkg) (sparse_task (py "t-4")) FAILURE
    (Exc Scenario.bad_input) (py "t-4")
  = (Raise TypeError,
     [Log WARNING (Setting_custom_error_response (py "t-4")) None;
      BackendGet (Scenario.key_for (py "t-4"))])
  /\ after_return (pkg := Scenario.pkg) (sparse_task (py "t-2")) FAILURE
       (Exc Scenario.bad_input) (py "t-2")
     = (Raise JSONDecodeError,
        [Log WARNING (Setting_custom_error_response (py "t-2")) None;
         BackendGet (Scenario.key_for (py "t-2"))])
  /\ after_return (pkg := Scenario.pkg) (sparse_task (py "t-6")) FAILURE
       (Exc Scenario.bad_input) (py "t-6")
     = (Raise (KeyError (py "result")),
        [Log WARNING (Setting_custom_error_response (py "t-6")) None;
         BackendGet (Scenario.key_for (py "t-6"))])
  /\ after_return (pkg := Scenario.pkg) (sparse_task (py "t-3")) FAILURE
       (Exc Scenario.bad_input) (py "t-3")
     = (Raise TypeError,
        [Log WARNING (Setting_custom_error_response (py "t-3")) None;
         BackendGet (Scenario.key_for (py "t-3"))])
  /\ after_return (pkg := Scenario.pkg) (sparse_task (py "t-7")) FAILURE
       (Exc Scenario.bad_input) (py "t-7")
     = (Raise (KeyError (py "exc_message")),
        [Log WARNING (Setting_custom_error_response (py "t-7")) None;
         BackendGet (Scenario.key_for (py "t-7"))]).
Proof.
  split; [|split; [|split; [|split]]].
  - apply (proj1 (backend_errors_propagate (pkg := Scenario.pkg)
                    (sparse_task (py "t-4")) Scenario.bad_input (py "t-4")
                    eq_refl)).
    vm_compute. reflexivity.
  - apply (proj1 (proj2 (backend_errors_propagate (pkg := Scenario.pkg)
                           (sparse_task (py "t-2")) Scenario.bad_input (py "t-2")
                           eq_refl))
             (sq "{'status': 'FAILURE'")).
    + vm_compute. reflexivity.
    + vm_compute. reflexivity.
  - apply (proj1 (proj2 (proj2 (backend_errors_propagate (pkg := Scenario.pkg)
                                  (sparse_task (py "t-6")) Scenario.bad_input
                                  (py "t-6") eq_refl)))
             (sq "{'status': 'FAILURE'}")
             (PyDict [(py "status", PyStr (py "FAILURE"))])).
    + vm_compute. reflexivity.
    + vm_compute. reflexivity.
    + vm_compute. reflexivity.
  - apply (proj1 (proj2 (proj2 (proj2 (backend_errors_propagate (pkg := Scenario.pkg)
                                         (sparse_task (py "t-3"))
                                         Scenario.bad_input (py "t-3") eq_refl))))
             (sq "{'status': 'FAILURE', 'result': null}")
             (PyDict [(py "status", PyStr (py "FAILURE")); (py "result", PyNone)])
             PyNone).
    + vm_compute. reflexivity.
    + vm_compute. reflexivity.
    + vm_compute. reflexivity.
    + vm_compute. reflexivity.
  - apply (proj2 (proj2 (proj2 (proj2 (backend_errors_propagate (pkg := Scenario.pkg)
                                         (sparse_task (py "t-7"))
                                         Scenario.bad_input (py "t-7") eq_refl))))
             (sq "{'result': {'exc_type': 'ValueError'}}")
             (PyDict [(py "result", PyDict [(py "exc_type", PyStr (py "ValueError"))])])
             (PyDict [(py "exc_type", PyStr (py "ValueError"))])
             (PyStr (py "ValueError"))).
    + vm_compute. reflexivity.
    + vm_compute. reflexivity.
    + vm_compute. reflexivity.
    + vm_compute. reflexivity.
    + vm_compute. reflexivity.
Defined.

Lemma exec_func_returns_or_reraises_at_scenario :
  exec_func (pkg := Scenario.pkg) Scenario.forwarder (PyDict []) [] []
  = (Return (PyDict []), [ForwarderCall (PyDict [])])
  /\ exec_func (pkg := Scenario.pkg) Scenario.forwarder PyNone [] []
     = (Raise (Raised Scenario.bad_input),
        [ForwarderCall PyNone;
         Log ERROR Celery_service_failed_to_respond (Some (Raised Scenario.bad_input))])
  /\ exec_func (pkg := Scenario.pkg) (fun _ => inl Scenario.keyboard_interrupt)
       PyNone [] []
     = (Raise (Raised Scenario.keyboard_interrupt), [ForwarderCall PyNone]).
Proof.
  split; [|split].
  - apply (proj1 (exec_func_returns_or_reraises (pkg := Scenario.pkg)
                    Scenario.forwarder (PyDict []) [] [])).
    reflexivity.
  - apply (proj2 (exec_func_returns_or_reraises (pkg := Scenario.pkg)
                    Scenario.forwarder PyNone [] []) Scenario.bad_input).
    reflexivity.
  - apply (proj2 (exec_func_returns_or_reraises (pkg := Scenario.pkg)
                    (fun _ => inl Scenario.keyboard_interrupt) PyNone [] [])
             Scenario.keyboard_interrupt).
    reflexivity.
Defined.

(** C5, where it fails.  The Forwarder raises a [KeyboardInterrupt], which
    does not derive from [Exception]: [exec_func] raises it again, but
    writes no log entry for it, at ERROR severity or any other. *)
Lemma exec_func_interrupt_not_logged :
  exec_func (pkg := Scenario.pkg) (fun _ => inl Scenario.keyboard_interrupt)
    PyNone [] []
  = (Raise (Raised Scenario.keyboard_interrupt), [ForwarderCall PyNone])
  /\ exec_func (pkg := Scenario.pkg) (fun _ => inl Scenario.keyboard_interrupt)
       PyNone [] []
     <> (Raise (Raised Scenario.keyboard_interrupt),
         [ForwarderCall PyNone;
          Log ERROR Celery_service_failed_to_respond
            (Some (Raised Scenario.keyboard_interrupt))])
  /\ error_logs
       (snd (exec_func (pkg := Scenario.pkg)
               (fun _ => inl Scenario.keyboard_interrupt) PyNone [] []))
     = [].
Proof.
  repeat split; try (vm_compute; reflexivity).
  intros H. vm_compute in H. discriminate H.
Qed.

Lemma entrypoint_visibility_fixed_at_scenario :
  entrypoint (pkg := Scenario.pkg)
    (with_task_visibility Scenario.args (py "VISIBILITY_10H"))
  = (Return tt,
     [WorkerStart
        {| name := None;
           s3_bucket := py "bucket";
           task_visibility := (86400 : @TaskVisibility Scenario.pkg);
           broker_type := py "redis";
           broker_transport_options := None |}
        [py "celery_service.exec_func"; py "async_inference.tasks.predict"]
        {| queues := [py "inference"];
           concurrency := 1;
           loglevel := py "INFO";
           optimization := py "fair";
           pool := py "solo" |}])
  /\ started_visibilities
       (snd (entrypoint (pkg := Scenario.pkg)
               (with_task_visibility Scenario.args (py "VISIBILITY_10H"))))
     = [(86400 : @TaskVisibility Scenario.pkg)].
Proof.
  destruct (proj2 (proj2 (entrypoint_visibility_fixed (pkg := Scenario.pkg)
                            Scenario.args (py "VISIBILITY_10H")))
              (PyDict [(py "async", PyDict [])]) (PyDict []) Scenario.forwarder
              eq_refl eq_refl eq_refl) as (E & _ & V).
  split; [exact E | exact V].
Defined.

Lemma broker_resolution_at_scenario :
  (let app :=
     create_celery_service (pkg := Scenario.pkg) Scenario.forwarder 86400
       (Some (py "inference")) None in
   broker_type (settings app) = py "redis"
   /\ broker_transport_options (settings app) = None)
  /\ (let sqs_url := Some (py "https://x") in
      let app :=
        create_celery_service (pkg := Scenario.pkg) Scenario.forwarder 86400
          (Some (py "q")) sqs_url in
      broker_type (settings app) = py "sqs"
      /\ broker_transport_options (settings app)
         = Some [(py "predefined_queues", [(Some (py "q"), [(py "url", sqs_url)])])]).
Proof.
  split.
  - apply (proj1 (broker_resolution (pkg := Scenario.pkg) Scenario.forwarder 86400
                    (Some (py "inference"))) None).
    left. reflexivity.
  - apply (proj2 (broker_resolution (pkg := Scenario.pkg) Scenario.forwarder 86400
                    (Some (py "q"))) 104 (py "ttps://x")).
Defined.

(** C8, where it fails.  An empty [sqs_url] is not [None], yet the
    application is created for REDIS, without transport options. *)
Lemma broker_resolution_empty_url :
  let sqs_url := Some [] in
  let app :=
    create_celery_service (pkg := Scenario.pkg) Scenario.forwarder 86400
      (Some (py "q")) sqs_url in
  sqs_url <> None
  /\ broker_type (settings app) = py "redis"
  /\ broker_type (settings app) <> py "sqs"
  /\ broker_transport_options (settings app) = None
  /\ broker_transport_options (settings app)
     <> Some [(py "predefined_queues", [(Some (py "q"), [(py "url", sqs_url)])])].
Proof.
  cbv zeta. repeat split; try (vm_compute; reflexivity); vm_compute; discriminate.
Qed.

(** The record of "t-3" has [null] for its result: reading ["exc_type"]
    from it is a [TypeError], and nothing is published. *)
Example after_return_result_is_null :
  after_return (pkg := Scenario.pkg) (Scenario.task (py "t-3")) FAILURE
    (Exc Scenario.bad_input) (py "t-3")
  = (Raise TypeError,
     [Log WARNING (Setting_custom_error_response (py "t-3")) None;
      BackendGet (Scenario.key_for (py "t-3"))]).
Proof. vm_compute. reflexivity. Qed.

(** A [KeyboardInterrupt] is not an [Exception]: [after_return] leaves the
    task alone and [exec_func] lets it through without a log entry. *)
Example keyboard_interrupt_untouched :
  after_return (pkg := Scenario.pkg) (Scenario.task (py "t-1")) FAILURE
    (Exc Scenario.keyboard_interrupt) (py "t-1")
  = (Return tt, [])
  /\ exec_func (pkg := Scenario.pkg) (fun _ => inl Scenario.keyboard_interrupt)
       PyNone [PyInt 1] []
     = (Raise (Raised Scenario.keyboard_interrupt),
        [Log WARNING (Ignoring_positional_arguments 1 [PyInt 1]) None;
         ForwarderCall PyNone]).
Proof. split; vm_compute; reflexivity. Qed.

(** The entry point with [--task-visibility VISIBILITY_1H]: one worker, on
    the queue "inference", over an application created with
    [VISIBILITY_24H] and registering both task names. *)
Example entrypoint_at_scenario :
  entrypoint (pkg := Scenario.pkg) Scenario.args
  = (Return tt,
     [WorkerStart
        {| name := None;
           s3_bucket := py "bucket";
           task_visibility := (86400 : @TaskVisibility Scenario.pkg);
           broker_type := py "redis";
           broker_transport_options := None |}
        [py "celery_service.exec_func"; py "async_inference.tasks.predict"]
        {| queues := [py "inference"];
           concurrency := 1;
           loglevel := py "INFO";
           optimization := py "fair";
           pool := py "solo" |}]).
Proof. vm_compute. reflexivity. Qed.

(** * Further properties *)

(** ** Reading back what the encoder wrote, for every string *)

Lemma replace_high_surrogate c :
  Str.is_high_surrogate c = true -> replace c = u_escape c.
Proof.
  unfold Str.is_high_surrogate. intros H. apply andb_true_iff in H as [L U].
  apply N.leb_le in L, U. unfold replace.
  replace (c =? 92) with false by (symmetry; apply N.eqb_neq; lia).
  replace (c =? 34) with false by (symmetry; apply N.eqb_neq; lia).
  replace (c <=? 126) with false by (symmetry; apply N.leb_gt; lia).
  rewrite andb_false_r.
  replace (c =? 8) with false by (symmetry; apply N.eqb_neq; lia).
  replace (c =? 12) with false by (symmetry; apply N.eqb_neq; lia).
  replace (c =? 10) with false by (symmetry; apply N.eqb_neq; lia).
  replace (c =? 13) with false by (symmetry; apply N.eqb_neq; lia).
  replace (c =? 9) with false by (symmetry; apply N.eqb_neq; lia).
  replace (c <? 65536) with true by (symmetry; apply N.ltb_lt; lia).
  reflexivity.
Qed.

Lemma replace_low_surrogate c :
  Str.is_low_surrogate c = true -> replace c = u_escape c.
Proof.
  unfold Str.is_low_surrogate. intros H. apply andb_true_iff in H as [L U].
  apply N.leb_le in L, U. unfold replace.
  replace (c =? 92) with false by (symmetry; apply N.eqb_neq; lia).
  replace (c =? 34) with false by (symmetry; apply N.eqb_neq; lia).
  replace (c <=? 126) with false by (symmetry; apply N.leb_gt; lia).
  rewrite andb_false_r.
  replace (c =? 8) with false by (symmetry; apply N.eqb_neq; lia).
  replace (c =? 12) with false by (symmetry; apply N.eqb_neq; lia).
  replace (c =? 10) with false by (symmetry; apply N.eqb_neq; lia).
  replace (c =? 13) with false by (symmetry; apply N.eqb_neq; lia).
  replace (c =? 9) with false by (symmetry; apply N.eqb_neq; lia).
  replace (c <? 65536) with true by (symmetry; apply N.ltb_lt; lia).
  reflexivity.
Qed.

Lemma scanstring_surrogate_pair c d r :
  Str.is_high_surrogate c = true -> Str.is_low_surrogate d = true ->
  scanstring (replace c ++ replace d ++ r)
  = append_char (0x10000 + N.lor (N.shiftl (c - 0xd800) 10) (d - 0xdc00))
      (scanstring r).
Proof.
  intros Hc Hd. rewrite (replace_high_surrogate c Hc), (replace_low_surrogate d Hd).
  assert (Lc : c < 65536).
  { unfold Str.is_high_surrogate in Hc. apply andb_true_iff in Hc as [_ U].
    apply N.leb_le in U. lia. }
  assert (Ld : d < 65536).
  { unfold Str.is_low_surrogate in Hd. apply andb_true_iff in Hd as [_ U].
    apply N.leb_le in U. lia. }
  destruct (decode_u_escape c (u_escape d ++ r) Lc) as (a & b & c' & d' & -> & D).
  destruct (decode_u_escape d r Ld) as (a2 & b2 & c2 & d2 & -> & D2).
  now apply scanstring_u_pair.
Qed.

Lemma scanstring_escape_merged n : forall s rest,
  (List.length s <= n)%nat -> Str.valid s ->
  scanstring (escape s ++ 34 :: rest) = Scanned (merge_surrogates s) rest.
Proof.
  induction n as [|n IH]; intros s rest Hn V.
  - destruct s; [reflexivity | cbn [List.length] in Hn; lia].
  - destruct s as [|c r]; [reflexivity|].
    inversion V as [|? ? Vc Vr]; subst.
    destruct r as [|d r'].
    + unfold escape. cbn [flat_map app]. rewrite app_nil_r.
      rewrite replace_spec; [reflexivity | exact Vc | ].
      intros _. apply no_low_escape_quote.
    + inversion Vr as [|? ? Vd Vr']; subst.
      cbn [List.length] in Hn.
      change (merge_surrogates (c :: d :: r'))
        with (if Str.is_high_surrogate c && Str.is_low_surrogate d
              then (0x10000 + N.lor (N.shiftl (c - 0xd800) 10) (d - 0xdc00))
                     :: merge_surrogates r'
              else c :: merge_surrogates (d :: r')).
      destruct (Str.is_high_surrogate c && Str.is_low_surrogate d) eqn:E.
      * apply andb_true_iff in E as [Hc Hd].
        unfold escape. cbn [flat_map]. fold (escape r'). rewrite <- !app_assoc.
        rewrite scanstring_surrogate_pair by assumption.
        rewrite IH; [reflexivity | lia | exact Vr'].
      * unfold escape. cbn [flat_map]. fold (escape r'). rewrite <- !app_assoc.
        rewrite replace_spec; [ | exact Vc | ].
        -- rewrite (app_assoc (replace d)).
           change (replace d ++ escape r') with (escape (d :: r')).
           rewrite IH; [reflexivity | cbn [List.length]; lia | exact Vr].
        -- intros Hc. rewrite Hc in E. cbn [andb] in E.
           apply no_low_escape_replace; assumption.
Qed.

Theorem scanstring_escape_all s rest :
  Str.valid s ->
  scanstring (escape s ++ 34 :: rest) = Scanned (merge_surrogates s) rest.
Proof. apply (scanstring_escape_merged (List.length s)). lia. Qed.

Lemma merge_surrogates_safe s :
  Str.has_surrogate_pair s = false -> merge_surrogates s = s.
Proof.
  induction s as [|c r IH]; [reflexivity|]. intros H.
  destruct r as [|d r']; [reflexivity|].
  apply surrogate_pair_cons in H as [H1 H2].
  change (merge_surrogates (c :: d :: r'))
    with (if Str.is_high_surrogate c && Str.is_low_surrogate d
          then (0x10000 + N.lor (N.shiftl (c - 0xd800) 10) (d - 0xdc00))
                 :: merge_surrogates r'
          else c :: merge_surrogates (d :: r')).
  destruct (Str.is_high_surrogate c) eqn:Hc.
  - rewrite (H1 eq_refl). cbn [andb]. now rewrite IH.
  - cbn [andb]. now rewrite IH.
Qed.

Lemma merge_surrogates_cons_low c s :
  c < 0xd800 -> merge_surrogates (c :: s) = c :: merge_surrogates s.
Proof.
  intros H. destruct s as [|d r]; [reflexivity|].
  change (merge_surrogates (c :: d :: r))
    with (if Str.is_high_surrogate c && Str.is_low_surrogate d
          then (0x10000 + N.lor (N.shiftl (c - 0xd800) 10) (d - 0xdc00))
                 :: merge_surrogates r
          else c :: merge_surrogates (d :: r)).
  unfold Str.is_high_surrogate.
  replace (0xd800 <=? c) with false by (symmetry; apply N.leb_gt; exact H).
  reflexivity.
Qed.


Lemma scan_string_value g v rest :
  Str.valid v ->
  scan_once (S g) (skip_ws (32 :: 34 :: escape v ++ 34 :: rest))
  = Scanned (PyStr (merge_surrogates v)) rest.
Proof.
  intros V. cbn [skip_ws is_ws N.eqb Pos.eqb orb].
  rewrite scan_once_string, scanstring_escape_all by exact V. reflexivity.
Qed.

Lemma fuel_of_text (c : N) (r : str) :
  exists g, (2 * List.length (c :: r) + 2)%nat = S (S (S (S g))).
Proof. exists (2 * List.length r)%nat. cbn [List.length]. lia. Qed.

Lemma loads_of_object r v :
  (forall g, scan_once (S (S (S (S g)))) (123 :: r) = Scanned v []) ->
  loads (123 :: r) = Loaded v.
Proof.
  intros H. unfold loads. change (123 =? 0xfeff) with false. cbv iota.
  unfold decode. cbn [skip_ws is_ws N.eqb Pos.eqb orb].
  destruct (fuel_of_text 123 r) as [g ->]. rewrite H. reflexivity.
Qed.

Lemma loads_dumps_False_two_all k1 v1 k2 v2 :
  Str.valid k1 -> Str.valid v1 -> Str.valid k2 -> Str.valid v2 ->
  loads (dumps py_False [(k1, v1); (k2, v2)])
  = Loaded
      (PyDict
         (Dict.of_pairs
            [(merge_surrogates k1, PyStr (merge_surrogates v1));
             (merge_surrogates k2, PyStr (merge_surrogates v2))])).
Proof.
  intros A B C D. rewrite dumps_False_two. apply loads_of_object. intros g.
  erewrite scan_once_object by reflexivity.
  erewrite object_loop_more;
    [ | now apply scanstring_escape_all | reflexivity | now apply scan_string_value
      | reflexivity | reflexivity ].
  erewrite object_loop_last;
    [ reflexivity | now apply scanstring_escape_all | reflexivity
      | now apply scan_string_value | reflexivity ].
Qed.

Lemma dumps_None_two k1 v1 k2 v2 :
  dumps IndentNone [(k1, v1); (k2, v2)]
  = 123 :: 34 :: escape k1 ++ 34 :: 58 :: 32 :: 34 :: escape v1 ++ 34 ::
      44 :: 32 :: 34 :: escape k2 ++ 34 :: 58 :: 32 :: 34 :: escape v2 ++ 34 ::
      [125].
Proof.
  unfold dumps, iterencode_dict, encode_items, encode_basestring_ascii, key_separator.
  cbn [indent_unit item_separator app].
  repeat (rewrite <- ?app_assoc; cbn [app]). reflexivity.
Qed.

Lemma loads_dumps_None_two_all k1 v1 k2 v2 :
  Str.valid k1 -> Str.valid v1 -> Str.valid k2 -> Str.valid v2 ->
  loads (dumps IndentNone [(k1, v1); (k2, v2)])
  = Loaded
      (PyDict
         (Dict.of_pairs
            [(merge_surrogates k1, PyStr (merge_surrogates v1));
             (merge_surrogates k2, PyStr (merge_surrogates v2))])).
Proof.
  intros A B C D. rewrite dumps_None_two. apply loads_of_object. intros g.
  erewrite scan_once_object by reflexivity.
  erewrite object_loop_more;
    [ | now apply scanstring_escape_all | reflexivity | now apply scan_string_value
      | reflexivity | reflexivity ].
  erewrite object_loop_last;
    [ reflexivity | now apply scanstring_escape_all | reflexivity
      | now apply scan_string_value | reflexivity ].
Qed.


Lemma validb_valid s : forallb (fun c => c <? 0x110000) s = true -> Str.valid s.
Proof.
  intros B. apply Forall_forall. intros c H.
  rewrite forallb_forall in B. apply N.ltb_lt. now apply B.
Qed.

Lemma valid_app a b : Str.valid a -> Str.valid b -> Str.valid (a ++ b).
Proof. intros A B. apply Forall_app. split; assumption. Qed.

Lemma valid_error_keys : Str.valid (py "error") /\ Str.valid (py "error_metadata").
Proof. destruct json_safe_error_keys as [[A _] [B _]]. split; assumption. Qed.

Lemma valid_Internal_failure : Str.valid (py "Internal failure" ++ [10]).
Proof.
  apply Forall_forall. intros c H.
  assert (B : forallb (fun c => c <? 0x110000) (py "Internal failure" ++ [10]) = true)
    by (vm_compute; reflexivity).
  rewrite forallb_forall in B. apply N.ltb_lt. now apply B.
Qed.

Lemma merge_surrogates_Internal_failure stacktrace :
  merge_surrogates (py "Internal failure" ++ [10] ++ stacktrace)
  = py "Internal failure" ++ [10] ++ merge_surrogates stacktrace.
Proof.
  let x := eval vm_compute in (py "Internal failure") in
  change (py "Internal failure") with x.
  cbn [app]. repeat (rewrite merge_surrogates_cons_low by reflexivity). reflexivity.
Qed.

(** The text stored under ["custom"] is a JSON document for every payload
    made of Python strings, and this is what it holds. *)
Lemma loads_json_dumps_indent_False_all payload :
  Str.valid (error payload) -> Str.valid (error_metadata payload) ->
  loads (json_dumps_indent_False payload)
  = Loaded
      (PyDict
         [(py "error", PyStr (merge_surrogates (error payload)));
          (py "error_metadata", PyStr (merge_surrogates (error_metadata payload)))]).
Proof.
  intros H1 H2. destruct valid_error_keys as [K1 K2].
  unfold json_dumps_indent_False, ErrorResponse_items.
  rewrite loads_dumps_False_two_all by assumption. reflexivity.
Qed.

Lemma printable_no_newline l :
  Forall (fun x => 32 <= x <= 126) l -> count_occ N.eq_dec l 10 = 0%nat.
Proof.
  intros H. apply count_occ_not_In. intros I.
  rewrite Forall_forall in H. specialize (H _ I). lia.
Qed.

Lemma printable_or_newline l :
  Forall (fun x => 32 <= x <= 126) l -> Forall (fun x => x = 10 \/ 32 <= x <= 126) l.
Proof. apply Forall_impl. intros a H. right. exact H. Qed.

(** X2.  Whatever the payload, the text [json.dumps(payload, indent=False)]
    gives is made of printable ASCII characters and line breaks, and has
    exactly three line breaks: none of them comes from the payload, whose
    own line breaks are written as escapes. *)
Theorem custom_text_three_lines payload :
  Forall (fun x => x = 10 \/ 32 <= x <= 126) (json_dumps_indent_False payload)
  /\ count_occ N.eq_dec (json_dumps_indent_False payload) 10 = 3%nat.
Proof.
  rewrite json_dumps_indent_False_layout.
  pose proof (encode_basestring_ascii_printable (py "error")) as P1.
  pose proof (encode_basestring_ascii_printable (error payload)) as P2.
  pose proof (encode_basestring_ascii_printable (py "error_metadata")) as P3.
  pose proof (encode_basestring_ascii_printable (error_metadata payload)) as P4.
  split.
  - repeat first
      [ apply printable_or_newline; assumption
      | apply Forall_app; split
      | constructor; [first [left; reflexivity | right; lia]|]
      | constructor ].
  - rewrite !count_occ_app.
    rewrite (printable_no_newline _ P1), (printable_no_newline _ P2),
      (printable_no_newline _ P3), (printable_no_newline _ P4).
    reflexivity.
Qed.

(** X3.  The line breaks [indent=False] inserts do not change what the text
    means: it deserializes to the same value as the compact text
    [json.dumps(payload)] of the same payload. *)
Theorem indent_False_reads_as_compact payload :
  Str.valid (error payload) -> Str.valid (error_metadata payload) ->
  loads (json_dumps_indent_False payload)
  = loads (dumps IndentNone (ErrorResponse_items payload)).
Proof.
  intros H1 H2. destruct valid_error_keys as [K1 K2].
  rewrite loads_json_dumps_indent_False_all by assumption.
  unfold ErrorResponse_items.
  rewrite loads_dumps_None_two_all by assumption. reflexivity.
Qed.

(** X4.  Two different error payloads are never published as the same text
    (for strings without a high surrogate directly followed by a low one). *)
Theorem custom_text_injective p1 p2 :
  json_safe (error p1) -> json_safe (error_metadata p1) ->
  json_safe (error p2) -> json_safe (error_metadata p2) ->
  p1 <> p2 ->
  json_dumps_indent_False p1 <> json_dumps_indent_False p2.
Proof.
  intros A1 B1 A2 B2 N E. apply N.
  pose proof (loads_json_dumps_indent_False p1 A1 B1) as L1.
  pose proof (loads_json_dumps_indent_False p2 A2 B2) as L2.
  rewrite E, L2 in L1. unfold envelope in L1.
  destruct p1 as [e1 m1], p2 as [e2 m2]. cbn [error error_metadata] in L1.
  injection L1 as -> ->. reflexivity.
Qed.

(** ** More about the worker *)

Section MoreWorkerFacts.

Context {pkg : Package}.

Set Default Proof Using "Type".

Lemma stored_failure_some b task_id t m :
  stored_failure b task_id = Some (t, m) ->
  exists text info result,
    get b (get_key_for_task b task_id) = Some text
    /\ loads text = Loaded info
    /\ field info (py "result") = Some result
    /\ field result (py "exc_type") = Some t
    /\ field result (py "exc_message") = Some m.
Proof.
  unfold stored_failure. intros H.
  destruct (get b (get_key_for_task b task_id)) as [text|] eqn:Hg; [|discriminate].
  destruct (loads text) as [info| |] eqn:Hl; try discriminate.
  destruct (field info (py "result")) as [result|] eqn:Hr; [|discriminate].
  destruct (field result (py "exc_type")) as [t'|] eqn:Ht; [|discriminate].
  destruct (field result (py "exc_message")) as [m'|] eqn:Hm; [|discriminate].
  injection H as <- <-. now exists text, info, result.
Qed.

Lemma as_Exception_some retval e :
  as_Exception retval = Some e <-> retval = Exc e /\ exc_is_Exception e = true.
Proof.
  unfold as_Exception. split.
  - destruct retval as [v | e']; [discriminate|].
    destruct (exc_is_Exception e') eqn:E; [|discriminate].
    intros H. injection H as <-. split; [reflexivity | exact E].
  - intros [-> E]. rewrite E. reflexivity.
Qed.

(** [after_return] on a failed task whose record is unusable. *)
Lemma after_return_lookup_fails self e task_id :
  exc_is_Exception e = true ->
  stored_failure (backend self) task_id = None ->
  exists r,
    after_return self FAILURE (Exc e) task_id
    = (Raise r,
       [Log WARNING (Setting_custom_error_response task_id) None;
        BackendGet (get_key_for_task (backend self) task_id)]).
Proof.
  intros He H. rewrite after_return_enters by exact He. unfold stored_failure in H.
  destruct (get (backend self) (get_key_for_task (backend self) task_id))
    as [text|] eqn:Hg.
  2: { exists TypeError. unfold bind at 2.
       rewrite (raw_celery_response_absent _ _ Hg). reflexivity. }
  destruct (loads text) as [info| |] eqn:Hl.
  - unfold bind at 2. rewrite (raw_celery_response_loaded _ _ _ _ Hg Hl).
    destruct (field info (py "result")) as [result|] eqn:Hr.
    + unfold bind at 2. rewrite (getitem_field _ _ _ Hr).
      destruct (field result (py "exc_type")) as [t|] eqn:Ht.
      * destruct (field result (py "exc_message")) as [m|] eqn:Hm; [discriminate|].
        destruct (getitem_missing _ _ Hm) as (r & G & _). exists r.
        unfold bind at 2. rewrite (getitem_field _ _ _ Ht).
        unfold bind at 2. rewrite G. reflexivity.
      * destruct (getitem_missing _ _ Ht) as (r & G & _). exists r.
        unfold bind at 2. rewrite G. reflexivity.
    + destruct (getitem_missing _ _ Hr) as (r & G & _). exists r.
      unfold bind at 2. rewrite G. reflexivity.
  - exists JSONDecodeError. unfold bind at 2.
    rewrite (raw_celery_response_malformed _ _ _ Hg Hl). reflexivity.
  - now apply loads_total in Hl.
Qed.

(** The three ways [after_return] can go. *)
Lemma after_return_cases self status retval task_id :
  after_return self status retval task_id = (Return tt, [])
  \/ (exists r,
        after_return self status retval task_id
        = (Raise r,
           [Log WARNING (Setting_custom_error_response task_id) None;
            BackendGet (get_key_for_task (backend self) task_id)]))
  \/ (exists e t m,
        status = FAILURE /\ retval = Exc e /\ exc_is_Exception e = true
        /\ stored_failure (backend self) task_id = Some (t, m)
        /\ after_return self status retval task_id
           = (Return tt,
              [Log WARNING (Setting_custom_error_response task_id) None;
               BackendGet (get_key_for_task (backend self) task_id);
               UpdateState (request_id self) FAILURE
                 [(py "exc_type", t);
                  (py "exc_message", m);
                  (py "custom",
                   PyStr (json_dumps_indent_False
                            (error_response (py "Internal failure") e)))]])).
Proof.
  destruct (Str.eqb status FAILURE) eqn:Es.
  2: { left. unfold after_return. rewrite Es. reflexivity. }
  apply Str_eqb_eq in Es. subst status.
  destruct (as_Exception retval) as [e|] eqn:Ea.
  2: { left. unfold after_return. rewrite Ea.
       destruct (Str.eqb FAILURE FAILURE); reflexivity. }
  apply as_Exception_some in Ea as [-> He].
  destruct (stored_failure (backend self) task_id) as [[t m]|] eqn:Hs.
  - right. right. exists e, t, m. repeat split; try assumption.
    destruct (stored_failure_some _ _ _ _ Hs)
      as (text & info & result & Hg & Hl & Hr & Ht & Hm).
    now apply (after_return_publishes self e task_id text info result t m).
  - right. left. now apply after_return_lookup_fails.
Qed.

(** X1.  [after_return] never publishes a state update unless the status
    is FAILURE, the terminal value is an instance of [Exception], and the
    record the backend holds for the task was decoded to an object with a
    ["result"] mapping having ["exc_type"] and ["exc_message"]. *)
Theorem after_return_publishes_only_if self status retval task_id :
  state_updates (snd (after_return self status retval task_id)) <> [] ->
  status = FAILURE
  /\ (exists e, retval = Exc e /\ exc_is_Exception e = true)
  /\ (exists t m, stored_failure (backend self) task_id = Some (t, m)).
Proof.
  intros H.
  destruct (after_return_cases self status retval task_id)
    as [E | [(r & E) | (e & t & m & Hs & Hr & He & Hf & E)]];
    rewrite E in H; cbn in H; try contradiction.
  repeat split; [exact Hs | now exists e | now exists t, m].
Qed.

(** X5.  Whatever it is called with, [after_return] reads the backend at
    most once, and only under the key of the task id it was given; it
    publishes at most once, never without having read, always the state
    FAILURE, for the task of the current request, with the keys
    ["exc_type"], ["exc_message"] and ["custom"] in this order. *)
Theorem after_return_effects_bounded self status retval task_id :
  let trace := snd (after_return self status retval task_id) in
  (List.length (state_updates trace) <= List.length (backend_reads trace) <= 1)%nat
  /\ Forall (fun key => key = get_key_for_task (backend self) task_id)
       (backend_reads trace)
  /\ Forall
       (fun u =>
          fst (fst u) = request_id self
          /\ snd (fst u) = FAILURE
          /\ map fst (snd u) = [py "exc_type"; py "exc_message"; py "custom"])
       (state_updates trace).
Proof.
  cbv zeta.
  destruct (after_return_cases self status retval task_id)
    as [E | [(r & E) | (e & t & m & _ & _ & _ & _ & E)]];
    rewrite E; cbn; repeat split; try lia; repeat constructor.
Qed.

(** X6.  For every exception whose message and stack trace are Python
    strings, the published ["custom"] text is a JSON document: an object
    with the two keys ["error"] and ["error_metadata"], holding [str(e)] and
    "Internal failure", a line break and the stack trace, where each high
    surrogate directly followed by a low one has become one character. *)
Theorem custom_always_deserializes e :
  Str.valid (exc_str e) ->
  Str.valid (format_stacktrace e) ->
  loads (json_dumps_indent_False (error_response (py "Internal failure") e))
  = Loaded
      (PyDict
         [(py "error", PyStr (merge_surrogates (exc_str e)));
          (py "error_metadata",
           PyStr (py "Internal failure" ++ [10]
                    ++ merge_surrogates (format_stacktrace e)))]).
Proof.
  intros V1 V2.
  rewrite loads_json_dumps_indent_False_all; cbn [error_response error error_metadata].
  - rewrite merge_surrogates_Internal_failure. reflexivity.
  - exact V1.
  - rewrite app_assoc. apply valid_app; [apply valid_Internal_failure | exact V2].
Qed.

(** X8.  An exception of the Forwarder that does not derive from
    [Exception] (a [KeyboardInterrupt], a [SystemExit]) leaves [exec_func]
    as it is, and no ERROR entry is logged for it. *)
Theorem exec_func_BaseException_unlogged forwarder payload ignored_args ignored_kwargs e :
  forwarder payload = inl e ->
  exc_is_Exception e = false ->
  fst (exec_func forwarder payload ignored_args ignored_kwargs) = Raise (Raised e)
  /\ error_logs (snd (exec_func forwarder payload ignored_args ignored_kwargs)) = [].
Proof.
  intros H He. rewrite exec_func_eval, H, He. cbn [fst snd]. split; [reflexivity|].
  unfold argument_warnings.
  destruct (0 <? List.length ignored_args)%nat,
           (0 <? List.length ignored_kwargs)%nat; reflexivity.
Qed.

(** X9.  [exec_func] logs at ERROR severity exactly when the Forwarder raised
    an instance of [Exception]; in particular a call that returns a value
    logs no error. *)
Theorem exec_func_error_log_iff forwarder payload ignored_args ignored_kwargs :
  error_logs (snd (exec_func forwarder payload ignored_args ignored_kwargs)) <> []
  <-> exists e, forwarder payload = inl e /\ exc_is_Exception e = true.
Proof.
  rewrite exec_func_eval. cbn [snd].
  assert (W : forall rest,
             error_logs (argument_warnings ignored_args ignored_kwargs ++ rest)
             = error_logs rest).
  { intros rest. unfold argument_warnings.
    destruct (0 <? List.length ignored_args)%nat,
             (0 <? List.length ignored_kwargs)%nat; reflexivity. }
  rewrite W. destruct (forwarder payload) as [e | v].
  - destruct (exc_is_Exception e) eqn:He; cbn; split.
    + intros _. now exists e.
    + discriminate.
    + contradiction.
    + intros (e' & H & He'). injection H as <-. rewrite He in He'. discriminate.
  - cbn. split; [contradiction|]. intros (e & H & _). discriminate.
Qed.



(** X12.  When the named configuration loads, has an ["async"] entry and
    gives a Forwarder, [entrypoint] starts one worker: it consumes the one
    queue [--queue] with concurrency [--num-workers], pool "solo",
    optimization "fair" and log level "INFO", over an application created
    with [VISIBILITY_24H] whose predefined queue, when [--sqs-url] is not
    empty, is that same queue with that URL. *)
Theorem entrypoint_starts_one_worker args forwarder_config async_config forwader :
  load_named_config (args_config args) (args_set args) = inr forwarder_config ->
  field forwarder_config (py "async") = Some async_config ->
  LoadForwarder_load async_config = inr forwader ->
  entrypoint args
  = (Return tt,
     [WorkerStart
        {| name := None;
           s3_bucket := infra_config_s3_bucket;
           task_visibility := VISIBILITY_24H;
           broker_type :=
             BrokerType_value (if truthy (args_sqs_url args) then SQS else REDIS);
           broker_transport_options :=
             if truthy (args_sqs_url args)
             then Some [(py "predefined_queues",
                         [(Some (args_queue args), [(py "url", args_sqs_url args)])])]
             else None |}
        (if Str.eqb LIRA_CELERY_TASK_NAME DEFAULT_CELERY_TASK_NAME
         then [LIRA_CELERY_TASK_NAME]
         else [LIRA_CELERY_TASK_NAME; DEFAULT_CELERY_TASK_NAME])
        {| queues := [args_queue args];
           concurrency := args_num_workers args;
           loglevel := py "INFO";
           optimization := py "fair";
           pool := py "solo" |}]).
Proof.
  intros H1 H2 H3.
  rewrite (entrypoint_starts_worker args forwarder_config async_config forwader)
    by assumption.
  unfold start_celery_service, emit.
  unfold create_celery_service, celery_app, app_task, lookup_task.
  simpl find.
  destruct (Str.eqb LIRA_CELERY_TASK_NAME DEFAULT_CELERY_TASK_NAME); reflexivity.
Qed.

(** X13.  [entrypoint] either ends in a raise without having started
    anything, or returns after starting exactly one worker, bound to the
    queue and concurrency of its arguments. *)
Theorem entrypoint_all_or_nothing args :
  (exists r, entrypoint args = (Raise r, []))
  \/ (fst (entrypoint args) = Return tt
      /\ workers_started (snd (entrypoint args))
         = [([args_queue args], args_num_workers args)]).
Proof.
  rewrite entrypoint_eval.
  destruct (load_named_config (args_config args) (args_set args)) as [r | cfg];
    [left; now exists r|].
  destruct (fst (getitem cfg (py "async"))) as [a | r]; [|left; now exists r].
  destruct (LoadForwarder_load a) as [r | fw]; [left; now exists r|].
  right. split; reflexivity.
Qed.

(** X14.  The class of the exception handed to [after_return] does not reach
    what it publishes: two exceptions with the same message and the same
    stack trace text give the same effects, the published ["exc_type"] being
    the one of the backend's record. *)
Theorem after_return_ignores_exception_class self status e1 e2 task_id :
  exc_is_Exception e1 = exc_is_Exception e2 ->
  exc_str e1 = exc_str e2 ->
  format_stacktrace e1 = format_stacktrace e2 ->
  after_return self status (Exc e1) task_id
  = after_return self status (Exc e2) task_id.
Proof.
  intros Hi Hs Hf. unfold after_return, as_Exception. rewrite Hi.
  destruct (Str.eqb status FAILURE); [|reflexivity].
  destruct (exc_is_Exception e2); [|reflexivity].
  assert (E : error_response (py "Internal failure") e1
              = error_response (py "Internal failure") e2).
  { unfold error_response. rewrite Hs, Hf. reflexivity. }
  rewrite E. reflexivity.
Qed.

End MoreWorkerFacts.

(** ** The further properties at the scenario *)

Lemma indent_False_reads_as_compact_at_split_emoji :
  loads (json_dumps_indent_False
           (error_response (pkg := Scenario.pkg) (py "Internal failure")
              Scenario.split_emoji))
  = loads (dumps IndentNone
             (ErrorResponse_items
                (error_response (pkg := Scenario.pkg) (py "Internal failure")
                   Scenario.split_emoji))).
Proof.
  apply indent_False_reads_as_compact.
  - apply validb_valid. vm_compute. reflexivity.
  - apply validb_valid. vm_compute. reflexivity.
Defined.

Lemma custom_text_injective_at_two_payloads :
  json_dumps_indent_False {| error := py "a"; error_metadata := py "b" |}
  <> json_dumps_indent_False {| error := py "a"; error_metadata := py "c" |}.
Proof.
  apply custom_text_injective.
  - apply json_safeb_safe. vm_compute. reflexivity.
  - apply json_safeb_safe. vm_compute. reflexivity.
  - apply json_safeb_safe. vm_compute. reflexivity.
  - apply json_safeb_safe. vm_compute. reflexivity.
  - intros H. vm_compute in H. discriminate H.
Defined.

Lemma custom_always_deserializes_at_split_emoji :
  loads (json_dumps_indent_False
           (error_response (pkg := Scenario.pkg) (py "Internal failure")
              Scenario.split_emoji))
  = Loaded
      (PyDict
         [(py "error", PyStr (merge_surrogates (exc_str Scenario.split_emoji)));
          (py "error_metadata",
           PyStr (py "Internal failure" ++ [10]
                    ++ merge_surrogates
                         (format_stacktrace (Package := Scenario.pkg)
                            Scenario.split_emoji)))]).
Proof.
  apply (custom_always_deserializes (pkg := Scenario.pkg) Scenario.split_emoji).
  - apply validb_valid. vm_compute. reflexivity.
  - apply validb_valid. vm_compute. reflexivity.
Defined.

Lemma exec_func_BaseException_unlogged_at_interrupt :
  fst (exec_func (pkg := Scenario.pkg) (fun _ => inl Scenario.keyboard_interrupt)
         PyNone [PyInt 1] [])
  = Raise (Raised Scenario.keyboard_interrupt)
  /\ error_logs
       (snd (exec_func (pkg := Scenario.pkg)
               (fun _ => inl Scenario.keyboard_interrupt) PyNone [PyInt 1] []))
     = [].
Proof.
  apply (exec_func_BaseException_unlogged (pkg := Scenario.pkg)).
  - reflexivity.
  - reflexivity.
Defined.


Lemma entrypoint_starts_one_worker_at_scenario :
  entrypoint (pkg := Scenario.pkg) Scenario.args
  = (Return tt,
     [WorkerStart
        {| name := None;
           s3_bucket := py "bucket";
           task_visibility := (86400 : @TaskVisibility Scenario.pkg);
           broker_type := py "redis";
           broker_transport_options := None |}
        [py "celery_service.exec_func"; py "async_inference.tasks.predict"]
        {| queues := [py "inference"];
           concurrency := 1;
           loglevel := py "INFO";
           optimization := py "fair";
           pool := py "solo" |}]).
Proof.
  apply (entrypoint_starts_one_worker (pkg := Scenario.pkg) Scenario.args
           (PyDict [(py "async", PyDict [])]) (PyDict []) Scenario.forwarder).
  - reflexivity.
  - vm_compute. reflexivity.
  - reflexivity.
Defined.

Lemma after_return_ignores_exception_class_at_scenario :
  after_return (pkg := plain_trace_pkg) (Scenario.task (py "t-1")) FAILURE
    (Exc Scenario.bad_input) (py "t-1")
  = after_return (pkg := plain_trace_pkg) (Scenario.task (py "t-1")) FAILURE
      (Exc bad_input_TypeError) (py "t-1").
Proof.
  apply (after_return_ignores_exception_class (pkg := plain_trace_pkg)).
  - reflexivity.
  - reflexivity.
  - reflexivity.
Defined.

Lemma after_return_publishes_only_if_at_scenario :
  FAILURE = FAILURE
  /\ (exists e, Exc Scenario.bad_input = Exc e /\ exc_is_Exception e = true)
  /\ (exists t m,
        stored_failure (backend (Scenario.task (py "t-1"))) (py "t-1") = Some (t, m)).
Proof.
  apply (after_return_publishes_only_if (pkg := Scenario.pkg)
           (Scenario.task (py "t-1")) FAILURE (Exc Scenario.bad_input) (py "t-1")).
  vm_compute. discriminate.
Defined.
